(** * IRGenerate: translation of a Solidity contract into JULIA

    A shallow embedding of [libsolidity/codegen/ir/IRGenerate.cpp] and the
    properties of the dispatcher, the naming scheme, the restriction checks
    and the generator state that the specification states about it.

    The generator is a visitor with mutable members ([m_contracts], [m_body],
    [m_currentFunction]) whose assertions throw; it is embedded as a state
    monad in which a thrown exception keeps the state reached so far. *)

From Stdlib Require Import Strings.Ascii Strings.Byte NArith.
From stdpp Require Import gmap strings list fin_maps.

Local Open Scope string_scope.
Local Open Scope list_scope.
Set Warnings "-register-all".

(** ** Source locations *)

Record SourceLocation := mkSourceLocation {
  loc_start : Z;
  loc_end : Z;
  loc_sourceName : string
}.

(** A default-constructed location. *)
Definition noLocation : SourceLocation := mkSourceLocation (-1) (-1) "".

(** ** The emitted tree (namespace [assembly]) *)

Module assembly.

Inductive LiteralKind := Number | Boolean | String.

Record Literal := mkLiteral {
  lit_location : SourceLocation;
  kind : LiteralKind;
  value : string;
  type : string
}.

Record Identifier := mkIdentifier {
  id_location : SourceLocation;
  name : string
}.

(** [Statement] is the variant of all node kinds. The generator builds
    literals, calls, function definitions, switches and blocks; every other
    assembly node kind only occurs inside blocks passed through from inline
    assembly and is carried as [StmtAssembly]. A [Case] whose [case_value] is
    [None] (a null pointer in the source) is the default case. *)
Inductive Statement :=
  | StmtLiteral (l : Literal)
  | StmtFunctionCall (c : FunctionCall)
  | StmtFunctionDefinition (d : FunctionDefinition)
  | StmtSwitch (s : Switch)
  | StmtBlock (b : Block)
  | StmtAssembly (text : string)
with FunctionCall :=
  | mkFunctionCall (call_location : SourceLocation) (functionName : Identifier)
      (arguments : list Statement)
with Block :=
  | mkBlock (blk_location : SourceLocation) (statements : list Statement)
with FunctionDefinition :=
  | mkFunctionDefinition (fd_location : SourceLocation) (fd_name : string)
      (fd_body : Block)
with Case :=
  | mkCase (case_location : SourceLocation) (case_value : option Literal)
      (case_body : Block)
with Switch :=
  | mkSwitch (sw_location : SourceLocation) (expression : option Statement)
      (cases : list Case).

Definition call_location (c : FunctionCall) := let (l, _, _) := c in l.
Definition functionName (c : FunctionCall) := let (_, n, _) := c in n.
Definition arguments (c : FunctionCall) := let (_, _, a) := c in a.
Definition blk_location (b : Block) := let (l, _) := b in l.
Definition statements (b : Block) := let (_, s) := b in s.
Definition fd_location (d : FunctionDefinition) := let (l, _, _) := d in l.
Definition fd_name (d : FunctionDefinition) := let (_, n, _) := d in n.
Definition fd_body (d : FunctionDefinition) := let (_, _, b) := d in b.
Definition case_location (c : Case) := let (l, _, _) := c in l.
Definition case_value (c : Case) := let (_, v, _) := c in v.
Definition case_body (c : Case) := let (_, _, b) := c in b.
Definition sw_location (s : Switch) := let (l, _, _) := s in l.
Definition expression (s : Switch) := let (_, e, _) := s in e.
Definition cases (s : Switch) := let (_, _, c) := s in c.

(** Default-constructed nodes. *)
Definition emptyBlock : Block := mkBlock noLocation [].
Definition emptyFunctionDefinition : FunctionDefinition :=
  mkFunctionDefinition noLocation "" emptyBlock.

(** [block.statements.emplace_back(st)] *)
Definition emplace_back (b : Block) (st : Statement) : Block :=
  mkBlock (blk_location b) (statements b ++ [st]).

End assembly.

(** ** The input tree (namespace [dev::solidity]) *)

Module solidity.

Inductive ContractKind := Interface | Contract | Library.

(** A parameter or return parameter: its name and the canonical name of its
    type, already resolved by the type checker. *)
Record VariableDeclaration := mkVariableDeclaration {
  var_name : string;
  var_canonicalType : string
}.

(** Statements of a function body. The generator overrides [visit] for
    [Block], [Throw] and [InlineAssembly]; for every other statement kind the
    visitor's default [visit] applies, which descends into the node's child
    statements in order ([OtherStatement]). *)
Inductive Statement :=
  | StmtBlock (b : Block)
  | Throw (throw_location : SourceLocation)
  | InlineAssembly (asm_location : SourceLocation) (operations : assembly.Block)
  | OtherStatement (children : list Statement)
with Block :=
  | mkBlock (blk_location : SourceLocation) (statements : list Statement).

Definition statements (b : Block) := let (_, s) := b in s.

Record FunctionDefinition := mkFunctionDefinition {
  fn_location : SourceLocation;
  name : string;
  isImplemented : bool;
  modifiers : list string;
  parameters : list VariableDeclaration;
  returnParameters : list VariableDeclaration;
  isPayable : bool;
  isPartOfExternalInterface : bool;
  body : Block
}.

Record ContractDefinition := mkContractDefinition {
  location : SourceLocation;
  fullyQualifiedName : string;
  contractKind : ContractKind;
  baseContracts : list string;
  definedStructs : list string;
  definedEnums : list string;
  events : list string;
  functionModifiers : list string;
  definedFunctions : list FunctionDefinition
}.

Definition isContract (k : ContractKind) : bool :=
  match k with Contract => true | _ => false end.

(** [v.empty()] *)
Definition empty {A} (v : list A) : bool :=
  match v with [] => true | _ => false end.

(** [s.empty()] on strings *)
Definition emptyName (s : string) : bool :=
  match s with EmptyString => true | _ => false end.

(** Modelled from the spec: [ContractDefinition::fallbackFunction] is declared
    in the AST, which is not part of the sources at hand. The spec identifies
    the fallback as the unnamed function of the contract ("a function with an
    empty source name (the fallback)", at most one per contract); the result
    is a null pointer when there is none. *)
Definition fallbackFunction (c : ContractDefinition) : option FunctionDefinition :=
  List.find (fun f => emptyName (name f)) (definedFunctions c).

(** Comma-joined list of strings. *)
Fixpoint commaJoin (l : list string) : string :=
  match l with
  | [] => ""
  | [x] => x
  | x :: r => x +:+ "," +:+ commaJoin r
  end.

(** Modelled from the spec: [FunctionDefinition::externalSignature] is
    declared in the AST, which is not part of the sources at hand. The spec
    gives the canonical signature as the name, an opening parenthesis, the
    comma-joined canonical parameter type names and a closing parenthesis,
    with no whitespace. *)
Definition externalSignature (f : FunctionDefinition) : string :=
  name f +:+ "(" +:+ commaJoin (map var_canonicalType (parameters f)) +:+ ")".

End solidity.

(** ** Helpers of [libdevcore] *)

Module dev.

(** One lowercase hexadecimal digit, as [std::hex] prints it. *)
Definition hexDigit (n : N) : Ascii.ascii :=
  match n with
  | 0 => "0" | 1 => "1" | 2 => "2" | 3 => "3" | 4 => "4" | 5 => "5"
  | 6 => "6" | 7 => "7" | 8 => "8" | 9 => "9" | 10 => "a" | 11 => "b"
  | 12 => "c" | 13 => "d" | 14 => "e" | _ => "f"
  end%N%char.

(** Modelled from the spec: [toHex] on a byte sequence is declared in
    [libdevcore/CommonData.h], which is not part of the sources at hand. The
    spec calls the result "hex-encoded": two hexadecimal digits per byte, in
    the order of the bytes. *)
Fixpoint toHex (bs : list byte) : string :=
  match bs with
  | [] => ""
  | b :: r =>
      String.String (hexDigit (Byte.to_N b / 16))
        (String.String (hexDigit (Byte.to_N b mod 16)) (toHex r))
  end.

(** The unsigned number whose big-endian representation is [bs]
    ([FixedHash<4>::Arith] applied to a 4-byte hash). *)
Definition fromBigEndian (bs : list byte) : N :=
  fold_left (fun acc b => (acc * 256 + Byte.to_N b)%N) bs 0%N.

Definition byteOfN (n : N) : byte :=
  match Byte.of_N n with Some b => b | None => x00 end.

(** The [w] low-order bytes of [v], most significant first. *)
Fixpoint toBigEndian (w : nat) (v : N) : list byte :=
  match w with
  | O => []
  | S w' => toBigEndian w' (v / 256) ++ [byteOfN (v mod 256)]
  end.

(** Modelled from the spec: the 4-byte [FixedHash] built from a 32-byte hash
    is declared in [libdevcore/FixedHash.h], which is not part of the sources
    at hand. The spec takes "the low 4 bytes" of the digest: the bytes at the
    four lowest offsets, which are the ones a call carries at the start of
    its input. *)
Definition FixedHash4 (h : list byte) : list byte := take 4 h.

(** Modelled from the spec: [toHex] on a number with [HexPrefix::Add] is
    declared in [libdevcore/CommonData.h], which is not part of the sources
    at hand. The spec describes "a hex-encoded, explicitly-typed 256-bit
    literal" of fixed width: the prefix 0x and the 32 big-endian bytes of the
    number in hexadecimal. *)
Definition toHexPrefixed (v : N) : string :=
  "0x" +:+ toHex (toBigEndian 32 v).

End dev.

(** ** The generator state and its monad *)

(** [solUnimplementedAssert] throws [UnimplementedFeatureError] (the spec's
    UnsupportedFeature), [solAssert] throws [InternalCompilerError] (the
    spec's InternalInconsistency). [NullDereference] stands for the undefined
    behaviour of dereferencing [m_body] while it is null or dangling. *)
Inductive Exception :=
  | UnimplementedFeatureError (msg : string)
  | InternalCompilerError (msg : string)
  | NullDereference.

Inductive Outcome (A : Type) :=
  | Returned (a : A)
  | Thrown (e : Exception).
Arguments Returned {A} a.
Arguments Thrown {A} e.

(** The members of [IRGenerate]. Blocks are shared between the registry
    [m_contracts] and [m_body] through [shared_ptr]: [m_blocks] is the store
    of allocated blocks, and both members hold an index into it. A name
    absent from [m_contracts] stands for a null entry. *)
Record IRGenerate := mkIRGenerate {
  m_contracts : gmap string nat;
  m_blocks : list assembly.Block;
  m_body : option nat;
  m_currentFunction : assembly.FunctionDefinition
}.

(** A freshly constructed generator. *)
Definition newIRGenerate : IRGenerate :=
  mkIRGenerate ∅ [] None assembly.emptyFunctionDefinition.

(** The Block registered for a contract name, if any. *)
Definition registered (s : IRGenerate) (fqn : string) : option assembly.Block :=
  match m_contracts s !! fqn with
  | Some l => m_blocks s !! l
  | None => None
  end.

Definition Gen (A : Type) : Type := IRGenerate -> Outcome A * IRGenerate.

Definition ret {A} (a : A) : Gen A := fun s => (Returned a, s).

Definition throw {A} (e : Exception) : Gen A := fun s => (Thrown e, s).

Definition bind {A B} (m : Gen A) (k : A -> Gen B) : Gen B :=
  fun s =>
    match m s with
    | (Returned a, s') => k a s'
    | (Thrown e, s') => (Thrown e, s')
    end.

Notation "'let*' x ':=' m 'in' k" := (bind m (fun x => k))
  (at level 10, x name, m at level 100, k at level 200, only parsing).
Notation "m '>>' k" := (bind m (fun _ => k))
  (at level 90, right associativity, only parsing).

(** A [for] loop over a vector. *)
Definition forEach {A} (f : A -> Gen unit) : list A -> Gen unit :=
  fix loop (l : list A) : Gen unit :=
    match l with
    | [] => ret tt
    | x :: r => f x >> loop r
    end.

Definition solUnimplementedAssert (cond : bool) (msg : string) : Gen unit :=
  if cond then ret tt else throw (UnimplementedFeatureError msg).

Definition solAssert (cond : bool) (msg : string) : Gen unit :=
  if cond then ret tt else throw (InternalCompilerError msg).

(** [m_body->statements.emplace_back(st)] *)
Definition body_emplace_back (st : assembly.Statement) : Gen unit :=
  fun s =>
    match m_body s with
    | None => (Thrown NullDereference, s)
    | Some l =>
        match m_blocks s !! l with
        | None => (Thrown NullDereference, s)
        | Some b =>
            (Returned tt,
             mkIRGenerate (m_contracts s)
               (<[l := assembly.emplace_back b st]> (m_blocks s))
               (m_body s) (m_currentFunction s))
        end
    end.

(** [m_currentFunction.body.statements.emplace_back(st)] *)
Definition currentFunction_emplace_back (st : assembly.Statement) : Gen unit :=
  fun s =>
    let cur := m_currentFunction s in
    (Returned tt,
     mkIRGenerate (m_contracts s) (m_blocks s) (m_body s)
       (assembly.mkFunctionDefinition (assembly.fd_location cur)
          (assembly.fd_name cur)
          (assembly.emplace_back (assembly.fd_body cur) st))).

(** [m_currentFunction = funDef] *)
Definition set_currentFunction (funDef : assembly.FunctionDefinition) : Gen unit :=
  fun s =>
    (Returned tt,
     mkIRGenerate (m_contracts s) (m_blocks s) (m_body s) funDef).

(** [m_body = make_shared<assembly::Block>(); m_body->location = loc;
    m_contracts[fqn] = m_body] *)
Definition registerBody (fqn : string) (loc : SourceLocation) : Gen unit :=
  fun s =>
    let l := length (m_blocks s) in
    (Returned tt,
     mkIRGenerate (<[fqn := l]> (m_contracts s))
       (m_blocks s ++ [assembly.mkBlock loc []])
       (Some l) (m_currentFunction s)).

(** ** Node builders (lines 196-222) *)

Definition createFunctionCall (_function : string) : assembly.FunctionCall :=
  assembly.mkFunctionCall noLocation
    (assembly.mkIdentifier noLocation _function) [].

Definition wrapInBlock (_statement : assembly.Statement) : assembly.Block :=
  assembly.emplace_back assembly.emptyBlock _statement.

Definition createRevert : assembly.FunctionCall :=
  let zero := assembly.mkLiteral noLocation assembly.Number "0" "u256" in
  assembly.mkFunctionCall noLocation
    (assembly.mkIdentifier noLocation "revert")
    ([] ++ [assembly.StmtLiteral zero] ++ [assembly.StmtLiteral zero]).

(** The text handed to [appendFunction] by [buildDispatcher] (lines 75-92). *)
Definition dispatcherBoilerplate : string := "
	{
		// Revert if value was received.
		function ensureNoValueTransfer()
		{
			switch callvalue()
			case 0:u256 {}
			default { revert(0:u256, 0:u256) }
		}

		// Extract 32 bit method identifier
		function extractCallSignature() -> sig:u256
		{
			// FIXME: replace with constant
			sig := div(calldataload(0:u256), exp(2:u256, 224:u256))
		}
	}
	".

(** ** Sample inputs *)

(** A stand-in for the digest, used to run the generator on examples: 32
    bytes, the first of which is the sum of the character codes of the text
    modulo 256. *)
Fixpoint checksum (text : string) : N :=
  match text with
  | EmptyString => 0
  | String.String a r => (Ascii.N_of_ascii a + checksum r) mod 256
  end%N.

Definition sampleDigest (text : string) : list byte :=
  dev.byteOfN (checksum text) :: replicate 31 x2a.

(** A stand-in for the parser, returning the two function definitions of the
    boilerplate and no error. *)
Definition sampleParse (text : string) : option assembly.Block * list string :=
  let zero := assembly.mkLiteral noLocation assembly.Number "0" "u256" in
  (Some
     (assembly.mkBlock noLocation
        [assembly.StmtFunctionDefinition
           (assembly.mkFunctionDefinition noLocation "ensureNoValueTransfer"
              (assembly.mkBlock noLocation
                 [assembly.StmtSwitch
                    (assembly.mkSwitch noLocation
                       (Some (assembly.StmtFunctionCall
                                (assembly.mkFunctionCall noLocation
                                   (assembly.mkIdentifier noLocation "callvalue") [])))
                       [assembly.mkCase noLocation (Some zero) assembly.emptyBlock;
                        assembly.mkCase noLocation None
                          (assembly.mkBlock noLocation
                             [assembly.StmtFunctionCall
                                (assembly.mkFunctionCall noLocation
                                   (assembly.mkIdentifier noLocation "revert")
                                   [assembly.StmtLiteral zero;
                                    assembly.StmtLiteral zero])])])]));
         assembly.StmtFunctionDefinition
           (assembly.mkFunctionDefinition noLocation "extractCallSignature"
              (assembly.mkBlock noLocation
                 [assembly.StmtAssembly
                    "sig := div(calldataload(0:u256), exp(2:u256, 224:u256))"]))]),
   []).

Definition sampleLocation (a b : Z) : SourceLocation :=
  mkSourceLocation a b "token.sol".

(** [function foo() external { throw; }] *)
Definition fooFunction : solidity.FunctionDefinition :=
  solidity.mkFunctionDefinition (sampleLocation 20 50) "foo" true [] [] []
    false true
    (solidity.mkBlock (sampleLocation 40 50)
       [solidity.Throw (sampleLocation 42 47)]).

(** [function pay() external payable {}] *)
Definition payFunction : solidity.FunctionDefinition :=
  solidity.mkFunctionDefinition (sampleLocation 55 90) "pay" true [] [] []
    true true (solidity.mkBlock (sampleLocation 88 90) []).

(** [function () {}] *)
Definition unnamedFunction : solidity.FunctionDefinition :=
  solidity.mkFunctionDefinition (sampleLocation 95 110) "" true [] [] []
    false false (solidity.mkBlock (sampleLocation 108 110) []).

(** [function set(uint256 x) external {}] *)
Definition setFunction : solidity.FunctionDefinition :=
  solidity.mkFunctionDefinition (sampleLocation 115 150) "set" true []
    [solidity.mkVariableDeclaration "x" "uint256"] []
    false true (solidity.mkBlock (sampleLocation 148 150) []).

Definition tokenContract : solidity.ContractDefinition :=
  solidity.mkContractDefinition (sampleLocation 0 160) "token.sol:Token"
    solidity.Contract [] [] [] [] []
    [fooFunction; payFunction; unnamedFunction].

(** The same contract with [set] declared after [foo]. *)
Definition setterContract : solidity.ContractDefinition :=
  solidity.mkContractDefinition (sampleLocation 0 160) "token.sol:Token"
    solidity.Contract [] [] [] [] []
    [fooFunction; setFunction].

(** A second contract, of another name. *)
Definition otherContract : solidity.ContractDefinition :=
  solidity.mkContractDefinition (sampleLocation 0 60) "other.sol:Other"
    solidity.Contract [] [] [] [] []
    [payFunction].

(** A stand-in for a parser that rejects its input. *)
Definition failingParse (text : string) : option assembly.Block * list string :=
  (None, ["unexpected token"]).

(** A stand-in for a parser that returns a block and reports a diagnostic. *)
Definition warningParse (text : string) : option assembly.Block * list string :=
  (fst (sampleParse text), ["diagnostic"]).

(** [function helper() internal {}] *)
Definition helperFunction : solidity.FunctionDefinition :=
  solidity.mkFunctionDefinition (sampleLocation 112 140) "helper" true [] [] []
    false false (solidity.mkBlock (sampleLocation 138 140) []).

(** [function broken(uint256 x) m;]: unimplemented, with a modifier and a
    parameter. *)
Definition brokenFunction : solidity.FunctionDefinition :=
  solidity.mkFunctionDefinition (sampleLocation 115 150) "broken" false ["m"]
    [solidity.mkVariableDeclaration "x" "uint256"] []
    false true (solidity.mkBlock (sampleLocation 148 150) []).

(** A body with nested blocks: [{ throw; { assembly {} { throw; } } }]. *)
Definition nestedBody : solidity.Statement :=
  solidity.StmtBlock
    (solidity.mkBlock (sampleLocation 1 40)
       [solidity.Throw (sampleLocation 2 7);
        solidity.StmtBlock
          (solidity.mkBlock (sampleLocation 9 38)
             [solidity.InlineAssembly (sampleLocation 11 22) assembly.emptyBlock;
              solidity.StmtBlock
                (solidity.mkBlock (sampleLocation 24 36)
                   [solidity.Throw (sampleLocation 26 31)])])]).

(** ** The generator *)

Section Generator.

(** [dev::keccak256], a 32-byte digest of a string; declared in
    [libdevcore/SHA3.h]. *)
Variable keccak256 : string -> list byte.

(** [assembly::Parser(errorReporter, true).parse(scanner)] on the given text:
    the parsed block (null on failure) and the errors reported; declared in
    [libsolidity/inlineasm/AsmParser.h]. *)
Variable parse : string -> option assembly.Block * list string.

Import solidity.

(** *** uniqueFunctionName (lines 63-69)

    Line 68 of the source spells the parameter [function] instead of
    [_function]; no other function is in scope there, and the embedding reads
    it as the parameter. *)
Definition uniqueFunctionName (_function : FunctionDefinition) : string :=
  if emptyName (name _function) then "fallback"
  else "_" +:+ name _function +:+ "_"
       +:+ dev.toHex (keccak256 (externalSignature _function)).

(** *** Visitors of the statements of a function body (lines 156-179) *)

Definition visitThrow (throw_location : SourceLocation) : Gen bool :=
  let funCall :=
    assembly.mkFunctionCall throw_location
      (assembly.functionName createRevert) (assembly.arguments createRevert) in
  currentFunction_emplace_back (assembly.StmtFunctionCall funCall) >>
  ret false.

Definition visitInlineAssembly (operations : assembly.Block) : Gen bool :=
  currentFunction_emplace_back (assembly.StmtBlock operations) >>
  ret false.

(** [statement->accept( *this )]: [accept] calls the visitor's [visit] for the
    node kind and descends into the children only when it returns [true];
    [visit(Block)] (lines 156-161) loops over the statements itself and
    returns [false]. *)
Fixpoint accept (st : Statement) : Gen unit :=
  match st with
  | StmtBlock b => forEach accept (statements b) >> ret tt
  | Throw throw_location => visitThrow throw_location >> ret tt
  | InlineAssembly _ operations => visitInlineAssembly operations >> ret tt
  | OtherStatement children => forEach accept children
  end.

Definition visitBlock (_node : Block) : Gen bool :=
  forEach accept (statements _node) >>
  ret false.

(** *** visit / endVisit of a function definition (lines 135-154) *)

Definition visitFunctionDefinition (_function : FunctionDefinition) : Gen bool :=
  solUnimplementedAssert (isImplemented _function)
    "Unimplemented functions not supported yet." >>
  solUnimplementedAssert (empty (modifiers _function))
    "Modifiers not supported yet." >>
  solUnimplementedAssert (empty (parameters _function))
    "Parameters not supported yet." >>
  solUnimplementedAssert (empty (returnParameters _function))
    "Return parameters not supported yet." >>
  let funDef :=
    assembly.mkFunctionDefinition (fn_location _function)
      (uniqueFunctionName _function) assembly.emptyBlock in
  set_currentFunction funDef >>
  visitBlock (body _function) >>
  ret false.

Definition endVisitFunctionDefinition : Gen unit :=
  fun s =>
    body_emplace_back (assembly.StmtFunctionDefinition (m_currentFunction s)) s.

(** [FunctionDefinition::accept]: [visit] returns [false], so nothing below
    the node is traversed by default; [endVisit] always follows. *)
Definition acceptFunctionDefinition (_function : FunctionDefinition) : Gen unit :=
  visitFunctionDefinition _function >>
  endVisitFunctionDefinition.

(** [ASTNode::listAccept] *)
Definition listAccept (l : list FunctionDefinition) : Gen unit :=
  forEach acceptFunctionDefinition l.

(** *** appendFunction (lines 181-194) *)

Definition appendFunction (_function : string) : Gen unit :=
  let (result, errors) := parse _function in
  solAssert (bool_decide (is_Some result)) "" >>
  solAssert (empty errors) "" >>
  match result with
  | Some block => forEach body_emplace_back (assembly.statements block)
  | None => throw NullDereference
  end.

(** *** buildDispatcher (lines 73-133) *)

(** The selector literal of lines 102-105. *)
Definition selectorLiteral (function : FunctionDefinition) : assembly.Literal :=
  assembly.mkLiteral noLocation assembly.Number
    (dev.toHexPrefixed
       (dev.fromBigEndian
          (dev.FixedHash4 (keccak256 (externalSignature function)))))
    "u256".

(** The case built in one round of the loop (lines 102-114). *)
Definition dispatchCase (function : FunctionDefinition) : assembly.Case :=
  let literal := selectorLiteral function in
  let body := assembly.emptyBlock in
  let body :=
    if negb (isPayable function)
    then assembly.emplace_back body
           (assembly.StmtFunctionCall (createFunctionCall "ensureNoValueTransfer"))
    else body in
  let body :=
    assembly.emplace_back body
      (assembly.StmtFunctionCall (createFunctionCall (uniqueFunctionName function))) in
  assembly.mkCase noLocation (Some literal) body.

(** [_switch.cases.emplace_back(_case)] *)
Definition cases_emplace_back (_switch : assembly.Switch) (_case : assembly.Case)
  : assembly.Switch :=
  assembly.mkSwitch (assembly.sw_location _switch) (assembly.expression _switch)
    (assembly.cases _switch ++ [_case]).

(** One round of the loop of lines 97-117. *)
Definition dispatchStep (_switch : assembly.Switch) (function : FunctionDefinition)
  : assembly.Switch :=
  if negb (isPartOfExternalInterface function) then _switch
  else cases_emplace_back _switch (dispatchCase function).

(** Lines 119-129. *)
Definition defaultCase (_contract : ContractDefinition) : assembly.Case :=
  match fallbackFunction _contract with
  | Some fallback =>
      let body := assembly.emptyBlock in
      let body :=
        if negb (isPayable fallback)
        then assembly.emplace_back body
               (assembly.StmtFunctionCall (createFunctionCall "ensureNoValueTransfer"))
        else body in
      let body :=
        assembly.emplace_back body
          (assembly.StmtFunctionCall (createFunctionCall "fallback")) in
      assembly.mkCase noLocation None body
  | None =>
      assembly.mkCase noLocation None
        (wrapInBlock (assembly.StmtFunctionCall createRevert))
  end.

(** The Switch of lines 94-130. *)
Definition dispatcherSwitch (_contract : ContractDefinition) : assembly.Switch :=
  let _switch :=
    assembly.mkSwitch noLocation
      (Some (assembly.StmtFunctionCall (createFunctionCall "extractCallSignature")))
      [] in
  let _switch := fold_left dispatchStep (definedFunctions _contract) _switch in
  cases_emplace_back _switch (defaultCase _contract).

Definition buildDispatcher (_contract : ContractDefinition) : Gen unit :=
  appendFunction dispatcherBoilerplate >>
  body_emplace_back (assembly.StmtSwitch (dispatcherSwitch _contract)).

(** *** visit of a contract definition (lines 36-58) *)

Definition visitContractDefinition (_contract : ContractDefinition) : Gen bool :=
  solUnimplementedAssert (isContract (contractKind _contract))
    "Non-contracts (libraries, interfaces) are not supported yet." >>
  solUnimplementedAssert (empty (baseContracts _contract))
    "Inheritance not supported yet." >>
  solUnimplementedAssert (empty (definedStructs _contract))
    "User-defined types not supported yet." >>
  solUnimplementedAssert (empty (definedEnums _contract))
    "User-defined types not supported yet." >>
  solUnimplementedAssert (empty (events _contract))
    "Events not supported yet." >>
  solUnimplementedAssert (empty (functionModifiers _contract))
    "Modifiers not supported yet." >>
  (fun s =>
     solAssert
       (bool_decide (m_contracts s !! fullyQualifiedName _contract = None)) "" s) >>
  registerBody (fullyQualifiedName _contract) (location _contract) >>
  listAccept (definedFunctions _contract) >>
  buildDispatcher _contract >>
  ret false.

(** ** What the generator computes, in closed form *)

(** The statements appended to the current function for one statement of the
    source, in order; source-level nesting is flattened. *)
Fixpoint emitted (st : Statement) : list assembly.Statement :=
  match st with
  | StmtBlock b => flat_map emitted (statements b)
  | Throw throw_location =>
      [assembly.StmtFunctionCall
         (assembly.mkFunctionCall throw_location
            (assembly.mkIdentifier noLocation "revert")
            [assembly.StmtLiteral
               (assembly.mkLiteral noLocation assembly.Number "0" "u256");
             assembly.StmtLiteral
               (assembly.mkLiteral noLocation assembly.Number "0" "u256")])]
  | InlineAssembly _ operations => [assembly.StmtBlock operations]
  | OtherStatement children => flat_map emitted children
  end.

(** The FunctionDefinition committed for a function of the source. *)
Definition functionIR (f : FunctionDefinition) : assembly.FunctionDefinition :=
  assembly.mkFunctionDefinition (fn_location f) (uniqueFunctionName f)
    (assembly.mkBlock noLocation (flat_map emitted (statements (body f)))).

(** The message of the first restriction a function violates, in the order of
    the checks of lines 137-140. *)
Definition functionRestriction (f : FunctionDefinition) : option string :=
  if negb (isImplemented f) then Some "Unimplemented functions not supported yet."
  else if negb (empty (modifiers f)) then Some "Modifiers not supported yet."
  else if negb (empty (parameters f)) then Some "Parameters not supported yet."
  else if negb (empty (returnParameters f))
       then Some "Return parameters not supported yet."
  else None.

(** The message of the first restriction a contract violates at its own level,
    in the order of the checks of lines 38-46. *)
Definition contractRestriction (c : ContractDefinition) : option string :=
  if negb (isContract (contractKind c))
  then Some "Non-contracts (libraries, interfaces) are not supported yet."
  else if negb (empty (baseContracts c)) then Some "Inheritance not supported yet."
  else if negb (empty (definedStructs c))
       then Some "User-defined types not supported yet."
  else if negb (empty (definedEnums c))
       then Some "User-defined types not supported yet."
  else if negb (empty (events c)) then Some "Events not supported yet."
  else if negb (empty (functionModifiers c)) then Some "Modifiers not supported yet."
  else None.

(** The functions visited without a violation, in declaration order, and the
    message of the first function-level violation, if there is one. *)
Fixpoint committed (fs : list FunctionDefinition)
  : list FunctionDefinition * option string :=
  match fs with
  | [] => ([], None)
  | f :: r =>
      match functionRestriction f with
      | Some msg => ([], Some msg)
      | None => let (pre, e) := committed r in (f :: pre, e)
      end
  end.

(** The current-function member after the given functions were visited. *)
Definition lastFunction (fs : list FunctionDefinition)
    (cur : assembly.FunctionDefinition) : assembly.FunctionDefinition :=
  fold_left (fun _ f => functionIR f) fs cur.

(** The externally callable functions, in declaration order. *)
Definition externalFunctions (c : ContractDefinition) : list FunctionDefinition :=
  List.filter isPartOfExternalInterface (definedFunctions c).

(** The statements of the root Block of a contract, given the block parsed
    from the boilerplate. *)
Definition contractStatements (c : ContractDefinition) (parsed : assembly.Block)
  : list assembly.Statement :=
  map (fun f => assembly.StmtFunctionDefinition (functionIR f)) (definedFunctions c)
  ++ assembly.statements parsed
  ++ [assembly.StmtSwitch (dispatcherSwitch c)].

(** The message of the first restriction violated anywhere in a contract. *)
Definition firstRestriction (c : ContractDefinition) : option string :=
  match contractRestriction c with
  | Some msg => Some msg
  | None => snd (committed (definedFunctions c))
  end.

(** A function uses an unsupported feature. *)
Definition restrictedFunction (f : FunctionDefinition) : bool :=
  negb (isImplemented f) || negb (empty (modifiers f))
  || negb (empty (parameters f)) || negb (empty (returnParameters f)).

(** A contract uses an unsupported feature, at its own level or in one of its
    functions. *)
Definition restrictedContract (c : ContractDefinition) : bool :=
  negb (isContract (contractKind c)) || negb (empty (baseContracts c))
  || negb (empty (definedStructs c)) || negb (empty (definedEnums c))
  || negb (empty (events c)) || negb (empty (functionModifiers c))
  || existsb restrictedFunction (definedFunctions c).

(** The state after the given statements were appended to the body of the
    current function. *)
Definition appendToCurrent (sts : list assembly.Statement) (s : IRGenerate)
  : IRGenerate :=
  let cur := m_currentFunction s in
  mkIRGenerate (m_contracts s) (m_blocks s) (m_body s)
    (assembly.mkFunctionDefinition (assembly.fd_location cur) (assembly.fd_name cur)
       (assembly.mkBlock (assembly.blk_location (assembly.fd_body cur))
          (assembly.statements (assembly.fd_body cur) ++ sts))).

(** Appending statements to a block. *)
Definition appendStatements (b : assembly.Block) (sts : list assembly.Statement)
  : assembly.Block :=
  assembly.mkBlock (assembly.blk_location b) (assembly.statements b ++ sts).

(** The outcome of visiting a list of functions. *)
Definition outcomeOf (e : option string) : Outcome unit :=
  match e with
  | Some msg => Thrown (UnimplementedFeatureError msg)
  | None => Returned tt
  end.

(** The statements of a case body: the guard, unless payable, then the call. *)
Definition guardedCall (payable : bool) (callee : string)
  : list assembly.Statement :=
  (if payable then []
   else [assembly.StmtFunctionCall (createFunctionCall "ensureNoValueTransfer")])
  ++ [assembly.StmtFunctionCall (createFunctionCall callee)].

(** The outcome and final state of visiting a contract, case by case. *)
Definition contractRun (c : ContractDefinition) (s : IRGenerate)
  : Outcome bool * IRGenerate :=
  match contractRestriction c with
  | Some msg => (Thrown (UnimplementedFeatureError msg), s)
  | None =>
      match m_contracts s !! fullyQualifiedName c with
      | Some _ => (Thrown (InternalCompilerError ""), s)
      | None =>
          let l := length (m_blocks s) in
          let pre := fst (committed (definedFunctions c)) in
          let funs :=
            map (fun f => assembly.StmtFunctionDefinition (functionIR f)) pre in
          let after sts :=
            mkIRGenerate (<[fullyQualifiedName c := l]> (m_contracts s))
              (m_blocks s ++ [assembly.mkBlock (location c) sts])
              (Some l) (lastFunction pre (m_currentFunction s)) in
          match snd (committed (definedFunctions c)) with
          | Some msg => (Thrown (UnimplementedFeatureError msg), after funs)
          | None =>
              match parse dispatcherBoilerplate with
              | (Some blk, []) =>
                  (Returned false,
                   after (funs ++ assembly.statements blk
                          ++ [assembly.StmtSwitch (dispatcherSwitch c)]))
              | _ => (Thrown (InternalCompilerError ""), after funs)
              end
          end
      end
  end.

(** The number of [throw] and inline-assembly statements at or below a
    statement of the source. *)
Fixpoint emitters (st : Statement) : nat :=
  match st with
  | StmtBlock b => list_sum (map emitters (statements b))
  | Throw _ => 1
  | InlineAssembly _ _ => 1
  | OtherStatement children => list_sum (map emitters children)
  end.

(** A statement as [visit(Throw)] or [visit(InlineAssembly)] appends it: the
    revert call, at some location, or a passed-through block. *)
Definition revertOrPassthrough (st : assembly.Statement) : Prop :=
  (exists l,
     st = assembly.StmtFunctionCall
            (assembly.mkFunctionCall l (assembly.functionName createRevert)
               (assembly.arguments createRevert)))
  \/ (exists operations, st = assembly.StmtBlock operations).

(** A contract with its list of functions replaced. *)
Definition withFunctions (c : ContractDefinition) (fs : list FunctionDefinition)
  : ContractDefinition :=
  mkContractDefinition (location c) (fullyQualifiedName c) (contractKind c)
    (baseContracts c) (definedStructs c) (definedEnums c) (events c)
    (functionModifiers c) fs.

(** The registry and [m_body] point into the store of blocks, and no two
    names share a block. *)
Definition wellFormed (s : IRGenerate) : Prop :=
  (forall n l, m_contracts s !! n = Some l -> l < length (m_blocks s)) /\
  (forall n1 n2 l,
     m_contracts s !! n1 = Some l -> m_contracts s !! n2 = Some l -> n1 = n2) /\
  (forall l, m_body s = Some l -> l < length (m_blocks s)).

(** A generator used for several contracts in turn, each visit starting from
    the state the previous one left, whatever its outcome. *)
Definition visitContracts (cs : list ContractDefinition) (s : IRGenerate)
  : IRGenerate :=
  fold_left (fun s c => snd (visitContractDefinition c s)) cs s.

(** ** Reasoning about runs *)

Lemma bind_Returned {A B} (m : Gen A) (k : A -> Gen B) s a s' :
  m s = (Returned a, s') -> bind m k s = k a s'.
Proof. intros H. unfold bind. by rewrite H. Qed.

Lemma bind_Thrown {A B} (m : Gen A) (k : A -> Gen B) s e s' :
  m s = (Thrown e, s') -> bind m k s = (Thrown e, s').
Proof. intros H. unfold bind. by rewrite H. Qed.

(** Induction over the statements of the source, through their children. *)
Lemma Statement_children_ind (P : Statement -> Prop) :
  (forall l ss, Forall P ss -> P (StmtBlock (mkBlock l ss))) ->
  (forall l, P (Throw l)) ->
  (forall l ops, P (InlineAssembly l ops)) ->
  (forall ch, Forall P ch -> P (OtherStatement ch)) ->
  forall st, P st.
Proof.
  intros HB HT HI HO.
  fix IH 1. intros [[l ss]|l|l ops|ch].
  - apply HB. induction ss as [|x r IHr]; constructor; [apply IH | exact IHr].
  - apply HT.
  - apply HI.
  - apply HO. induction ch as [|x r IHr]; constructor; [apply IH | exact IHr].
Qed.

Lemma appendToCurrent_nil s : appendToCurrent [] s = s.
Proof.
  destruct s as [cs bs bd [l n [bl ss]]]. unfold appendToCurrent. simpl.
  by rewrite app_nil_r.
Qed.

Lemma appendToCurrent_app a b s :
  appendToCurrent (a ++ b) s = appendToCurrent b (appendToCurrent a s).
Proof.
  destruct s as [cs bs bd [l n [bl ss]]]. unfold appendToCurrent. simpl.
  by rewrite app_assoc.
Qed.

Lemma currentFunction_emplace_back_spec st s :
  currentFunction_emplace_back st s = (Returned tt, appendToCurrent [st] s).
Proof. reflexivity. Qed.

Lemma forEach_accept_spec (l : list Statement) :
  Forall (fun st => forall s,
            accept st s = (Returned tt, appendToCurrent (emitted st) s)) l ->
  forall s, forEach accept l s
            = (Returned tt, appendToCurrent (flat_map emitted l) s).
Proof.
  induction 1 as [|x r Hx _ IH]; intros s; simpl.
  - by rewrite appendToCurrent_nil.
  - rewrite (bind_Returned _ _ _ _ _ (Hx s)), IH.
    by rewrite appendToCurrent_app.
Qed.

Lemma accept_spec (st : Statement) (s : IRGenerate) :
  accept st s = (Returned tt, appendToCurrent (emitted st) s).
Proof.
  revert s. induction st as [l ss IH|l|l ops|ch IH] using Statement_children_ind;
    intros s; simpl.
  - by rewrite (bind_Returned _ _ _ _ _ (forEach_accept_spec _ IH s)).
  - reflexivity.
  - reflexivity.
  - by apply forEach_accept_spec.
Qed.

Lemma visitBlock_spec (b : Block) (s : IRGenerate) :
  visitBlock b s
  = (Returned false, appendToCurrent (flat_map emitted (statements b)) s).
Proof.
  unfold visitBlock.
  rewrite (bind_Returned _ _ s tt (appendToCurrent (flat_map emitted (statements b)) s)).
  - reflexivity.
  - apply forEach_accept_spec, Forall_forall. intros st _ s0. apply accept_spec.
Qed.

(** *** Function visits *)

Lemma visitFunctionDefinition_spec (f : FunctionDefinition) cs bs bd cur :
  visitFunctionDefinition f (mkIRGenerate cs bs bd cur)
  = match functionRestriction f with
    | Some msg => (Thrown (UnimplementedFeatureError msg), mkIRGenerate cs bs bd cur)
    | None => (Returned false, mkIRGenerate cs bs bd (functionIR f))
    end.
Proof.
  unfold visitFunctionDefinition, functionRestriction.
  destruct (isImplemented f); [|reflexivity].
  destruct (empty (modifiers f)); [|reflexivity].
  destruct (empty (parameters f)); [|reflexivity].
  destruct (empty (returnParameters f)); [|reflexivity].
  simpl. unfold bind at 1 2 3 4 5. simpl.
  unfold bind. rewrite visitBlock_spec. reflexivity.
Qed.

Lemma appendStatements_nil b : appendStatements b [] = b.
Proof. destruct b. unfold appendStatements. simpl. by rewrite app_nil_r. Qed.

Lemma appendStatements_app b x y :
  appendStatements (appendStatements b x) y = appendStatements b (x ++ y).
Proof. destruct b. unfold appendStatements. simpl. by rewrite app_assoc. Qed.

Lemma body_emplace_back_spec st cs bs l cur b :
  bs !! l = Some b ->
  body_emplace_back st (mkIRGenerate cs bs (Some l) cur)
  = (Returned tt, mkIRGenerate cs (<[l := appendStatements b [st]]> bs) (Some l) cur).
Proof. intros Hb. unfold body_emplace_back. simpl. by rewrite Hb. Qed.

Lemma forEach_body_emplace_back_spec sts cs bs l cur b :
  bs !! l = Some b ->
  forEach body_emplace_back sts (mkIRGenerate cs bs (Some l) cur)
  = (Returned tt, mkIRGenerate cs (<[l := appendStatements b sts]> bs) (Some l) cur).
Proof.
  revert bs b. induction sts as [|st r IH]; intros bs b Hb; simpl.
  - by rewrite appendStatements_nil, list_insert_id.
  - rewrite (bind_Returned _ _ _ _ _ (body_emplace_back_spec st cs bs l cur b Hb)).
    rewrite (IH _ (appendStatements b [st])).
    + by rewrite list_insert_insert_eq, appendStatements_app.
    + apply list_lookup_insert_eq. by eapply lookup_lt_Some.
Qed.

Lemma acceptFunctionDefinition_spec f cs bs l cur b :
  bs !! l = Some b ->
  acceptFunctionDefinition f (mkIRGenerate cs bs (Some l) cur)
  = match functionRestriction f with
    | Some msg =>
        (Thrown (UnimplementedFeatureError msg), mkIRGenerate cs bs (Some l) cur)
    | None =>
        (Returned tt,
         mkIRGenerate cs
           (<[l := appendStatements b
                     [assembly.StmtFunctionDefinition (functionIR f)]]> bs)
           (Some l) (functionIR f))
    end.
Proof.
  intros Hb. unfold acceptFunctionDefinition, bind.
  rewrite visitFunctionDefinition_spec.
  destruct (functionRestriction f); [reflexivity|].
  unfold endVisitFunctionDefinition. simpl.
  by apply body_emplace_back_spec.
Qed.

Lemma listAccept_spec fs cs bs l cur b :
  bs !! l = Some b ->
  listAccept fs (mkIRGenerate cs bs (Some l) cur)
  = (outcomeOf (snd (committed fs)),
     mkIRGenerate cs
       (<[l := appendStatements b
                 (map (fun f => assembly.StmtFunctionDefinition (functionIR f))
                      (fst (committed fs)))]> bs)
       (Some l) (lastFunction (fst (committed fs)) cur)).
Proof.
  unfold listAccept.
  revert bs cur b. induction fs as [|f r IH]; intros bs cur b Hb; simpl.
  - by rewrite appendStatements_nil, list_insert_id.
  - unfold bind at 1. rewrite (acceptFunctionDefinition_spec f cs bs l cur b Hb).
    destruct (functionRestriction f) as [msg|]; simpl.
    + by rewrite appendStatements_nil, list_insert_id.
    + rewrite (IH _ _ (appendStatements b
                         [assembly.StmtFunctionDefinition (functionIR f)])).
      * destruct (committed r) as [pre e]. simpl.
        by rewrite list_insert_insert_eq, appendStatements_app.
      * apply list_lookup_insert_eq. by eapply lookup_lt_Some.
Qed.

(** *** The dispatcher *)

Lemma appendFunction_spec text cs bs l cur b :
  bs !! l = Some b ->
  appendFunction text (mkIRGenerate cs bs (Some l) cur)
  = match parse text with
    | (Some blk, []) =>
        (Returned tt,
         mkIRGenerate cs (<[l := appendStatements b (assembly.statements blk)]> bs)
           (Some l) cur)
    | _ => (Thrown (InternalCompilerError ""), mkIRGenerate cs bs (Some l) cur)
    end.
Proof.
  intros Hb. unfold appendFunction.
  destruct (parse text) as [[blk|] [|e errs]]; try reflexivity.
  unfold bind at 1 2. simpl.
  by apply forEach_body_emplace_back_spec.
Qed.

Lemma buildDispatcher_spec c cs bs l cur b :
  bs !! l = Some b ->
  buildDispatcher c (mkIRGenerate cs bs (Some l) cur)
  = match parse dispatcherBoilerplate with
    | (Some blk, []) =>
        (Returned tt,
         mkIRGenerate cs
           (<[l := appendStatements b
                     (assembly.statements blk
                      ++ [assembly.StmtSwitch (dispatcherSwitch c)])]> bs)
           (Some l) cur)
    | _ => (Thrown (InternalCompilerError ""), mkIRGenerate cs bs (Some l) cur)
    end.
Proof.
  intros Hb. unfold buildDispatcher, bind.
  rewrite (appendFunction_spec _ cs bs l cur b Hb).
  destruct (parse dispatcherBoilerplate) as [[blk|] [|e errs]]; try reflexivity.
  rewrite (body_emplace_back_spec _ _ _ _ _
             (appendStatements b (assembly.statements blk))).
  - by rewrite list_insert_insert_eq, appendStatements_app.
  - apply list_lookup_insert_eq. by eapply lookup_lt_Some.
Qed.

(** *** A whole contract *)

Lemma insert_last_block (bs : list assembly.Block) b b' :
  <[length bs := b']> (bs ++ [b]) = bs ++ [b'].
Proof.
  replace (length bs) with (length bs + 0) by lia.
  by rewrite insert_app_r.
Qed.

Lemma visitContractDefinition_spec (c : ContractDefinition) (s : IRGenerate) :
  visitContractDefinition c s = contractRun c s.
Proof.
  unfold visitContractDefinition, contractRun, contractRestriction.
  destruct (isContract (contractKind c)); [|reflexivity].
  destruct (empty (baseContracts c)); [|reflexivity].
  destruct (empty (definedStructs c)); [|reflexivity].
  destruct (empty (definedEnums c)); [|reflexivity].
  destruct (empty (events c)); [|reflexivity].
  destruct (empty (functionModifiers c)); [|reflexivity].
  simpl. unfold bind at 1 2 3 4 5 6 7. simpl.
  destruct (m_contracts s !! fullyQualifiedName c) as [l0|] eqn:Hreg.
  { rewrite bool_decide_false by done. reflexivity. }
  rewrite bool_decide_true by done. simpl.
  destruct s as [cs bs bd cur]. simpl in *.
  unfold bind at 1. simpl.
  unfold bind at 1.
  rewrite (listAccept_spec _ _ _ _ _ (assembly.mkBlock (location c) []))
    by apply list_lookup_middle, eq_refl.
  rewrite insert_last_block.
  destruct (snd (committed (definedFunctions c))) as [msg|]; simpl; [reflexivity|].
  unfold bind at 1.
  rewrite (buildDispatcher_spec _ _ _ _ _
             (appendStatements (assembly.mkBlock (location c) [])
                (map (fun f => assembly.StmtFunctionDefinition (functionIR f))
                   (fst (committed (definedFunctions c))))))
    by apply list_lookup_middle, eq_refl.
  destruct (parse dispatcherBoilerplate) as [[blk|] [|e errs]]; try reflexivity.
  rewrite insert_last_block. reflexivity.
Qed.

(** *** The shape of the Switch *)

Lemma fold_dispatchStep_cases fs sw :
  assembly.cases (fold_left dispatchStep fs sw)
  = assembly.cases sw ++ map dispatchCase (List.filter isPartOfExternalInterface fs).
Proof.
  revert sw. induction fs as [|f r IH]; intros sw; simpl.
  - by rewrite app_nil_r.
  - rewrite IH. unfold dispatchStep.
    destruct (isPartOfExternalInterface f); simpl; [|reflexivity].
    destruct sw as [l e cs]. simpl. by rewrite <- app_assoc.
Qed.

Lemma fold_dispatchStep_expression fs sw :
  assembly.expression (fold_left dispatchStep fs sw) = assembly.expression sw.
Proof.
  revert sw. induction fs as [|f r IH]; intros sw; simpl; [reflexivity|].
  rewrite IH. unfold dispatchStep.
  destruct (isPartOfExternalInterface f); simpl; [|reflexivity].
  by destruct sw.
Qed.

Lemma dispatcherSwitch_cases c :
  assembly.cases (dispatcherSwitch c)
  = map dispatchCase (externalFunctions c) ++ [defaultCase c].
Proof.
  unfold dispatcherSwitch, cases_emplace_back. simpl.
  by rewrite fold_dispatchStep_cases.
Qed.

Lemma dispatcherSwitch_expression c :
  assembly.expression (dispatcherSwitch c)
  = Some (assembly.StmtFunctionCall (createFunctionCall "extractCallSignature")).
Proof.
  unfold dispatcherSwitch, cases_emplace_back. simpl.
  by rewrite fold_dispatchStep_expression.
Qed.

Lemma dispatchCase_value f :
  assembly.case_value (dispatchCase f) = Some (selectorLiteral f).
Proof. reflexivity. Qed.

Lemma defaultCase_value c : assembly.case_value (defaultCase c) = None.
Proof. unfold defaultCase. by destruct (fallbackFunction c). Qed.

(** The guard is never the implementation of a function of the source. *)
Lemma uniqueFunctionName_not_guard f :
  uniqueFunctionName f <> "ensureNoValueTransfer".
Proof.
  unfold uniqueFunctionName. destruct (emptyName (name f)); discriminate.
Qed.

Lemma fallbackFunction_name c fb :
  fallbackFunction c = Some fb -> uniqueFunctionName fb = "fallback".
Proof.
  unfold fallbackFunction. intros H. apply find_some in H as [_ H].
  unfold uniqueFunctionName. by rewrite H.
Qed.

Lemma dispatchCase_body f :
  assembly.case_body (dispatchCase f)
  = assembly.mkBlock noLocation (guardedCall (isPayable f) (uniqueFunctionName f)).
Proof. unfold dispatchCase, guardedCall. by destruct (isPayable f). Qed.

Lemma defaultCase_body_fallback c fb :
  fallbackFunction c = Some fb ->
  assembly.case_body (defaultCase c)
  = assembly.mkBlock noLocation (guardedCall (isPayable fb) (uniqueFunctionName fb)).
Proof.
  intros H. rewrite (fallbackFunction_name c fb H).
  unfold defaultCase, guardedCall. rewrite H. by destruct (isPayable fb).
Qed.

Lemma guardedCall_head payable callee :
  callee <> "ensureNoValueTransfer" ->
  (head (guardedCall payable callee)
   = Some (assembly.StmtFunctionCall (createFunctionCall "ensureNoValueTransfer"))
   <-> payable = false).
Proof.
  intros Hne. unfold guardedCall. destruct payable; simpl.
  - split; [|discriminate]. intros H. exfalso. apply Hne.
    unfold createFunctionCall in H. congruence.
  - done.
Qed.

(** *** Big-endian numbers and their bytes *)

Lemma fromBigEndian_snoc l b :
  dev.fromBigEndian (l ++ [b]) = (dev.fromBigEndian l * 256 + Byte.to_N b)%N.
Proof. unfold dev.fromBigEndian. by rewrite fold_left_app. Qed.

Lemma byteOfN_to_N b : dev.byteOfN (Byte.to_N b) = b.
Proof. unfold dev.byteOfN. by rewrite Byte.of_to_N. Qed.

Lemma to_N_lt_256 b : (Byte.to_N b < 256)%N.
Proof. pose proof (Byte.to_N_bounded b). lia. Qed.

Lemma toBigEndian_zero w : dev.toBigEndian w 0 = replicate w x00.
Proof.
  induction w as [|w IH]; [reflexivity|].
  simpl dev.toBigEndian. change (0 / 256)%N with 0%N. rewrite IH.
  change (replicate w x00 ++ [x00] = replicate (S w) x00).
  clear IH. induction w as [|w IH]; simpl; [reflexivity|]. by rewrite IH.
Qed.

Lemma toBigEndian_fromBigEndian w l :
  length l <= w ->
  dev.toBigEndian w (dev.fromBigEndian l) = replicate (w - length l) x00 ++ l.
Proof.
  revert w. induction l as [|b l IH] using rev_ind; intros w Hw.
  - rewrite app_nil_r, Nat.sub_0_r. apply toBigEndian_zero.
  - rewrite length_app in Hw. simpl in Hw.
    destruct w as [|w]; [lia|].
    rewrite fromBigEndian_snoc. simpl dev.toBigEndian.
    pose proof (to_N_lt_256 b) as Hb.
    assert (Hq : ((dev.fromBigEndian l * 256 + Byte.to_N b) / 256
                  = dev.fromBigEndian l)%N).
    { symmetry. apply (N.div_unique _ _ _ (Byte.to_N b)); lia. }
    assert (Hr : ((dev.fromBigEndian l * 256 + Byte.to_N b) mod 256
                  = Byte.to_N b)%N).
    { symmetry. apply (N.mod_unique _ _ (dev.fromBigEndian l)); lia. }
    rewrite Hq, Hr, byteOfN_to_N, IH by lia.
    rewrite length_app. simpl.
    replace (S w - (length l + 1)) with (w - length l) by lia.
    by rewrite <- app_assoc.
Qed.

(** *** Successful generation *)

Lemma committed_all fs :
  snd (committed fs) = None -> fst (committed fs) = fs.
Proof.
  induction fs as [|f r IH]; simpl; [reflexivity|].
  destruct (functionRestriction f); [discriminate|].
  destruct (committed r) as [pre e]. simpl in *. intros ->. by rewrite IH.
Qed.

Lemma registered_new cs bs bd cur fqn b :
  registered (mkIRGenerate (<[fqn := length bs]> cs) (bs ++ [b]) bd cur) fqn
  = Some b.
Proof.
  unfold registered. simpl. rewrite lookup_insert_eq.
  by apply list_lookup_middle.
Qed.

(** A visit that returns has passed every check, and registers the Block
    computed by [contractStatements]. *)
Lemma generation_success c s r s' :
  visitContractDefinition c s = (Returned r, s') ->
  exists parsed,
    parse dispatcherBoilerplate = (Some parsed, []) /\
    firstRestriction c = None /\
    m_contracts s !! fullyQualifiedName c = None /\
    r = false /\
    registered s' (fullyQualifiedName c)
    = Some (assembly.mkBlock (location c) (contractStatements c parsed)).
Proof.
  rewrite visitContractDefinition_spec. unfold contractRun, firstRestriction.
  destruct (contractRestriction c); [discriminate|].
  destruct (m_contracts s !! fullyQualifiedName c); [discriminate|].
  destruct (snd (committed (definedFunctions c))) eqn:He; [discriminate|].
  rewrite (committed_all _ He).
  destruct (parse dispatcherBoilerplate) as [[blk|] [|e errs]]; try discriminate.
  intros [= <- <-]. exists blk. repeat split; try reflexivity.
  apply registered_new.
Qed.

Lemma contractStatements_last c parsed :
  last (contractStatements c parsed)
  = Some (assembly.StmtSwitch (dispatcherSwitch c)).
Proof. unfold contractStatements. by rewrite !app_assoc, last_snoc. Qed.

(** *** The nodes of the dispatcher, spelled out *)

Lemma selectorLiteral_spelled f :
  selectorLiteral f
  = assembly.mkLiteral noLocation assembly.Number
      ("0x" +:+
       dev.toHex
         (replicate (32 - length (take 4 (keccak256 (externalSignature f)))) x00
          ++ take 4 (keccak256 (externalSignature f))))
      "u256".
Proof.
  unfold selectorLiteral, dev.toHexPrefixed, dev.FixedHash4.
  rewrite toBigEndian_fromBigEndian; [reflexivity|].
  rewrite length_take. lia.
Qed.

(** *** Functions committed before the end of a visit *)

Lemma committed_lookup fs i f :
  fs !! i = Some f ->
  (forall j g, j <= i -> fs !! j = Some g -> restrictedFunction g = false) ->
  fst (committed fs) !! i = Some f.
Proof.
  revert i. induction fs as [|h r IH]; intros i Hf Hall; [by destruct i|].
  assert (Hh : functionRestriction h = None).
  { specialize (Hall 0 h ltac:(lia) eq_refl).
    unfold restrictedFunction in Hall. unfold functionRestriction.
    destruct (isImplemented h), (empty (modifiers h)), (empty (parameters h)),
      (empty (returnParameters h)); simpl in *; done. }
  simpl. rewrite Hh. destruct (committed r) as [pre e] eqn:Hr. simpl.
  destruct i as [|i]; [exact Hf|].
  simpl in *. apply (IH i Hf). intros j g Hj Hg.
  apply (Hall (S j) g); [lia|exact Hg].
Qed.

Lemma visit_registers_committed c s :
  contractRestriction c = None ->
  m_contracts s !! fullyQualifiedName c = None ->
  exists rest,
    registered (snd (visitContractDefinition c s)) (fullyQualifiedName c)
    = Some (assembly.mkBlock (location c)
              (map (fun f => assembly.StmtFunctionDefinition (functionIR f))
                   (fst (committed (definedFunctions c)))
               ++ rest)).
Proof.
  intros Hc Hfree. rewrite visitContractDefinition_spec. unfold contractRun.
  rewrite Hc, Hfree. destruct s as [cs bs bd cur]. simpl.
  destruct (snd (committed (definedFunctions c))); simpl.
  { exists []. by rewrite registered_new, app_nil_r. }
  destruct (parse dispatcherBoilerplate) as [[b|] [|e errs]]; simpl;
    rewrite registered_new; try (exists []; by rewrite app_nil_r).
  eexists. reflexivity.
Qed.

(** *** Where the entries of the registry come from *)

Lemma visit_registry_origin c s n l :
  m_contracts (snd (visitContractDefinition c s)) !! n = Some l ->
  m_contracts s !! n = Some l
  \/ (n = fullyQualifiedName c /\ contractRestriction c = None).
Proof.
  rewrite visitContractDefinition_spec. unfold contractRun.
  destruct (contractRestriction c) eqn:Hc; [by left|].
  destruct (m_contracts s !! fullyQualifiedName c) eqn:Hfree; [by left|].
  assert (Hins : forall l0,
            <[fullyQualifiedName c := l0]> (m_contracts s) !! n = Some l ->
            m_contracts s !! n = Some l
            \/ (n = fullyQualifiedName c /\ @None string = None)).
  { intros l0. destruct (decide (fullyQualifiedName c = n)) as [<-|Hne].
    - by right.
    - rewrite lookup_insert_ne by done. by left. }
  destruct (snd (committed (definedFunctions c))); simpl; [apply Hins|].
  destruct (parse dispatcherBoilerplate) as [[b|] [|e errs]]; simpl; apply Hins.
Qed.

Lemma visitContracts_registry_origin cs s n l :
  m_contracts (visitContracts cs s) !! n = Some l ->
  m_contracts s !! n = Some l
  \/ (exists c, In c cs /\ fullyQualifiedName c = n /\ contractRestriction c = None).
Proof.
  revert s. induction cs as [|c0 r IH]; intros s; simpl; [by left|].
  intros H. destruct (IH _ H) as [H0|(c & Hin & Hn & Hc)].
  - destruct (visit_registry_origin c0 s n l H0) as [Hs|[-> Hc0]]; [by left|].
    right. exists c0. split; [by left|done].
  - right. exists c. split; [by right|done].
Qed.

Lemma visit_keeps_entry c s n l :
  m_contracts s !! n = Some l ->
  m_contracts (snd (visitContractDefinition c s)) !! n = Some l.
Proof.
  intros Hn. rewrite visitContractDefinition_spec. unfold contractRun.
  destruct (contractRestriction c); [done|].
  destruct (m_contracts s !! fullyQualifiedName c) eqn:Hreg; [done|].
  assert (Hne : fullyQualifiedName c <> n) by congruence.
  destruct (snd (committed (definedFunctions c))); simpl.
  { by rewrite lookup_insert_ne. }
  destruct (parse dispatcherBoilerplate) as [[blk|] [|e errs]]; simpl;
    by rewrite lookup_insert_ne.
Qed.

(** ** The claims of the specification *)

(** C1: for a contract that generates successfully with N externally callable
    functions f1..fN in declaration order, the Switch at the end of its root
    Block has exactly N+1 cases; case i carries the selector Literal of fi,
    the Number typed u256 whose value is 0x followed by the 32-byte
    hexadecimal encoding of the first four bytes of the digest of fi's
    canonical signature; and the default case (the one without a Literal) is
    the last case and no other. *)
Theorem dispatcher_case_per_external_function
    (c : ContractDefinition) (s s' : IRGenerate) (r : bool) :
  visitContractDefinition c s = (Returned r, s') ->
  exists blk sw,
    registered s' (fullyQualifiedName c) = Some blk /\
    last (assembly.statements blk) = Some (assembly.StmtSwitch sw) /\
    length (assembly.cases sw) = S (length (externalFunctions c)) /\
    (forall i f, externalFunctions c !! i = Some f ->
       let signature :=
         name f +:+ "(" +:+ commaJoin (map var_canonicalType (parameters f))
         +:+ ")" in
       let selector := take 4 (keccak256 signature) in
       exists k,
         assembly.cases sw !! i = Some k /\
         assembly.case_value k
         = Some (assembly.mkLiteral noLocation assembly.Number
                   ("0x" +:+
                    dev.toHex (replicate (32 - length selector) x00 ++ selector))
                   "u256")) /\
    (forall i k, assembly.cases sw !! i = Some k ->
       (assembly.case_value k = None <-> i = length (externalFunctions c))).
Proof.
  intros Hrun.
  destruct (generation_success c s r s' Hrun) as (parsed & _ & _ & _ & _ & Hreg).
  exists (assembly.mkBlock (location c) (contractStatements c parsed)),
         (dispatcherSwitch c).
  split; [exact Hreg|]. split; [apply contractStatements_last|].
  rewrite dispatcherSwitch_cases. split; [|split].
  - rewrite length_app, length_map. simpl. lia.
  - intros i f Hf signature selector. exists (dispatchCase f). split.
    + rewrite lookup_app_l by (rewrite length_map; by eapply lookup_lt_Some).
      by rewrite list_lookup_fmap, Hf.
    + rewrite dispatchCase_value, selectorLiteral_spelled. reflexivity.
  - intros i k Hk.
    destruct (decide (i < length (externalFunctions c))) as [Hlt|Hge].
    + rewrite lookup_app_l in Hk by (by rewrite length_map).
      rewrite list_lookup_fmap in Hk.
      destruct (externalFunctions c !! i) as [f|]; [|discriminate].
      injection Hk as <-. rewrite dispatchCase_value. split; [discriminate|lia].
    + rewrite lookup_app_r in Hk by (rewrite length_map; lia).
      rewrite length_map in Hk.
      destruct (i - length (externalFunctions c)) as [|n] eqn:Hi.
      * injection Hk as <-. rewrite defaultCase_value. split; [lia|done].
      * destruct n; discriminate.
Qed.

(** C2: the Literal on the dispatch case of an externally callable function
    is a Number typed u256 whose value is the prefix 0x followed by the
    32-byte hexadecimal encoding of the selector: the first four bytes of
    keccak256 of the canonical signature (name, opening parenthesis,
    comma-joined canonical parameter type names, closing parenthesis),
    padded with zero bytes on the left. *)
Theorem selector_literal_of_case (c : ContractDefinition) (i : nat)
    (f : FunctionDefinition) :
  externalFunctions c !! i = Some f ->
  let signature :=
    name f +:+ "(" +:+ commaJoin (map var_canonicalType (parameters f)) +:+ ")" in
  let selector := take 4 (keccak256 signature) in
  exists k lit,
    assembly.cases (dispatcherSwitch c) !! i = Some k /\
    assembly.case_value k = Some lit /\
    assembly.kind lit = assembly.Number /\
    assembly.type lit = "u256" /\
    assembly.value lit
    = "0x" +:+ dev.toHex (replicate (32 - length selector) x00 ++ selector).
Proof.
  intros Hf signature selector.
  exists (dispatchCase f), (selectorLiteral f).
  split; [|repeat split].
  - rewrite dispatcherSwitch_cases.
    rewrite lookup_app_l by (rewrite length_map; by eapply lookup_lt_Some).
    by rewrite list_lookup_fmap, Hf.
  - unfold selectorLiteral. simpl. unfold dev.toHexPrefixed, dev.FixedHash4.
    fold signature selector.
    rewrite toBigEndian_fromBigEndian; [reflexivity|].
    unfold selector. rewrite length_take. lia.
Qed.

(** C3: in every dispatch case, the default case of a declared fallback
    included, the body begins with the call of the value-transfer guard if
    and only if the function is not payable; the guard call is immediately
    followed by the call of the function's unique internal name, and the body
    of a payable function's case is that call alone. *)
Theorem case_body_guard (c : ContractDefinition) :
  let guard :=
    assembly.StmtFunctionCall (createFunctionCall "ensureNoValueTransfer") in
  let implementation f :=
    assembly.StmtFunctionCall (createFunctionCall (uniqueFunctionName f)) in
  (forall i f, externalFunctions c !! i = Some f ->
     exists k,
       assembly.cases (dispatcherSwitch c) !! i = Some k /\
       assembly.statements (assembly.case_body k)
       = (if isPayable f then [implementation f] else [guard; implementation f]) /\
       (head (assembly.statements (assembly.case_body k)) = Some guard
        <-> isPayable f = false)) /\
  (forall fb, fallbackFunction c = Some fb ->
     exists k,
       last (assembly.cases (dispatcherSwitch c)) = Some k /\
       assembly.case_value k = None /\
       assembly.statements (assembly.case_body k)
       = (if isPayable fb then [implementation fb] else [guard; implementation fb]) /\
       (head (assembly.statements (assembly.case_body k)) = Some guard
        <-> isPayable fb = false)).
Proof.
  intros guard implementation. rewrite dispatcherSwitch_cases. split.
  - intros i f Hf. exists (dispatchCase f). split; [|split].
    + rewrite lookup_app_l by (rewrite length_map; by eapply lookup_lt_Some).
      by rewrite list_lookup_fmap, Hf.
    + rewrite dispatchCase_body. unfold guardedCall. by destruct (isPayable f).
    + rewrite dispatchCase_body. simpl.
      apply guardedCall_head, uniqueFunctionName_not_guard.
  - intros fb Hfb. exists (defaultCase c). rewrite last_snoc.
    split; [reflexivity|]. split; [apply defaultCase_value|].
    rewrite (defaultCase_body_fallback c fb Hfb). simpl. split.
    + unfold guardedCall. by destruct (isPayable fb).
    + apply guardedCall_head, uniqueFunctionName_not_guard.
Qed.

(** C4: the default case is the last case of the Switch. When a fallback is
    declared its body calls the fallback's unique name, which is "fallback",
    preceded by the call of ensureNoValueTransfer if and only if the fallback
    is not payable; when none is declared its body is exactly the call
    revert(0, 0), with two Number literals of value 0 and type u256 as
    arguments. *)
Theorem default_case_body (c : ContractDefinition) :
  let call callee :=
    assembly.StmtFunctionCall
      (assembly.mkFunctionCall noLocation
         (assembly.mkIdentifier noLocation callee) []) in
  exists k,
    last (assembly.cases (dispatcherSwitch c)) = Some k /\
    assembly.case_value k = None /\
    (forall fb, fallbackFunction c = Some fb ->
       uniqueFunctionName fb = "fallback" /\
       assembly.statements (assembly.case_body k)
       = (if isPayable fb then [call "fallback"]
          else [call "ensureNoValueTransfer"; call "fallback"])) /\
    (fallbackFunction c = None ->
       let zero :=
         assembly.StmtLiteral
           (assembly.mkLiteral noLocation assembly.Number "0" "u256") in
       assembly.statements (assembly.case_body k)
       = [assembly.StmtFunctionCall
            (assembly.mkFunctionCall noLocation
               (assembly.mkIdentifier noLocation "revert") [zero; zero])]).
Proof.
  intros call. exists (defaultCase c). rewrite dispatcherSwitch_cases, last_snoc.
  split; [reflexivity|]. split; [apply defaultCase_value|]. split.
  - intros fb Hfb. split; [by apply (fallbackFunction_name c)|].
    rewrite (defaultCase_body_fallback c fb Hfb), (fallbackFunction_name c fb Hfb).
    unfold guardedCall. by destruct (isPayable fb).
  - intros Hnone. unfold defaultCase. by rewrite Hnone.
Qed.

(** C5: the internal name of a function is "fallback" when its source name is
    empty, and otherwise an underscore, the source name, an underscore and the
    hexadecimal digest of the canonical signature. Every visit of a supported
    function gives the current function this name; the FunctionDefinition
    committed for a function carries it as soon as the function and the ones
    declared before it are supported, whether or not generation fails later;
    the dispatch case of an externally callable function ends with a call of
    this name, and so does the default case of a declared fallback. *)
Theorem internal_function_names (c : ContractDefinition) (s : IRGenerate) :
  let internalName f :=
    if decide (name f = "") then "fallback"
    else "_" +:+ name f +:+ "_" +:+ dev.toHex (keccak256 (externalSignature f)) in
  let call callee :=
    assembly.StmtFunctionCall
      (assembly.mkFunctionCall noLocation
         (assembly.mkIdentifier noLocation callee) []) in
  (forall f s0, restrictedFunction f = false ->
     exists s1,
       visitFunctionDefinition f s0 = (Returned false, s1) /\
       assembly.fd_name (m_currentFunction s1) = internalName f) /\
  (contractRestriction c = None ->
   m_contracts s !! fullyQualifiedName c = None ->
   exists blk,
     registered (snd (visitContractDefinition c s)) (fullyQualifiedName c)
     = Some blk /\
     forall i f, definedFunctions c !! i = Some f ->
       (forall j g, j <= i -> definedFunctions c !! j = Some g ->
                    restrictedFunction g = false) ->
       exists d,
         assembly.statements blk !! i = Some (assembly.StmtFunctionDefinition d) /\
         assembly.fd_name d = internalName f) /\
  (forall r s', visitContractDefinition c s = (Returned r, s') ->
     exists blk,
       registered s' (fullyQualifiedName c) = Some blk /\
       last (assembly.statements blk)
       = Some (assembly.StmtSwitch (dispatcherSwitch c))) /\
  (forall i f, externalFunctions c !! i = Some f ->
     exists k,
       assembly.cases (dispatcherSwitch c) !! i = Some k /\
       last (assembly.statements (assembly.case_body k))
       = Some (call (internalName f))) /\
  (forall fb, fallbackFunction c = Some fb ->
     exists k,
       last (assembly.cases (dispatcherSwitch c)) = Some k /\
       last (assembly.statements (assembly.case_body k))
       = Some (call (internalName fb))).
Proof.
  intros internalName call.
  assert (Hname : forall f, uniqueFunctionName f = internalName f).
  { intros f. unfold uniqueFunctionName, internalName.
    destruct (name f); by repeat case_decide. }
  split; [|split; [|split; [|split]]].
  - intros f [cs bs bd cur] Hf. rewrite visitFunctionDefinition_spec.
    assert (Hr : functionRestriction f = None).
    { unfold restrictedFunction in Hf. unfold functionRestriction.
      destruct (isImplemented f), (empty (modifiers f)), (empty (parameters f)),
        (empty (returnParameters f)); simpl in *; done. }
    rewrite Hr. eexists. split; [reflexivity|]. apply Hname.
  - intros Hc Hfree.
    destruct (visit_registers_committed c s Hc Hfree) as [rest Hreg].
    eexists. split; [exact Hreg|].
    intros i f Hf Hall. exists (functionIR f). split; [|apply Hname].
    pose proof (committed_lookup _ i f Hf Hall) as Hi. simpl.
    rewrite lookup_app_l by (rewrite length_map; by eapply lookup_lt_Some).
    by rewrite list_lookup_fmap, Hi.
  - intros r s' Hrun.
    destruct (generation_success c s r s' Hrun) as (parsed & _ & _ & _ & _ & Hreg).
    eexists. split; [exact Hreg|]. apply contractStatements_last.
  - intros i f Hf. exists (dispatchCase f). split.
    + rewrite dispatcherSwitch_cases.
      rewrite lookup_app_l by (rewrite length_map; by eapply lookup_lt_Some).
      by rewrite list_lookup_fmap, Hf.
    + rewrite dispatchCase_body, <- Hname. unfold guardedCall. simpl.
      by rewrite last_snoc.
  - intros fb Hfb. exists (defaultCase c). split.
    + by rewrite dispatcherSwitch_cases, last_snoc.
    + rewrite (defaultCase_body_fallback c fb Hfb), <- Hname.
      unfold guardedCall. simpl. by rewrite last_snoc.
Qed.

(** *** Restrictions *)

Lemma functionRestriction_restricted f :
  restrictedFunction f = true -> is_Some (functionRestriction f).
Proof.
  unfold restrictedFunction, functionRestriction.
  destruct (isImplemented f), (empty (modifiers f)), (empty (parameters f)),
    (empty (returnParameters f)); simpl; eauto; discriminate.
Qed.

Lemma committed_restricted fs :
  existsb restrictedFunction fs = true -> is_Some (snd (committed fs)).
Proof.
  induction fs as [|f r IH]; simpl; [discriminate|].
  destruct (restrictedFunction f) eqn:Hf; simpl.
  - intros _. destruct (functionRestriction_restricted f Hf) as [msg ->]. eauto.
  - intros Hr. destruct (functionRestriction f); [eauto|].
    destruct (committed r) as [pre e]. simpl in *. auto.
Qed.

Lemma firstRestriction_restricted c :
  restrictedContract c = true -> is_Some (firstRestriction c).
Proof.
  unfold restrictedContract, firstRestriction, contractRestriction.
  destruct (isContract (contractKind c)); simpl; [|eauto].
  destruct (empty (baseContracts c)); simpl; [|eauto].
  destruct (empty (definedStructs c)); simpl; [|eauto].
  destruct (empty (definedEnums c)); simpl; [|eauto].
  destruct (empty (events c)); simpl; [|eauto].
  destruct (empty (functionModifiers c)); simpl; [|eauto].
  apply committed_restricted.
Qed.

(** C6, as the code has it: a contract that uses an unsupported feature fails
    with UnimplementedFeatureError carrying the message of the first violated
    check, provided that, when the violation is in a function, the contract's
    name is not registered yet. A violation at the level of the contract
    leaves the generator unchanged. A violation in a function is detected
    after the contract's Block was registered: the Block stays registered and
    holds the FunctionDefinitions of the functions before the violating one. *)
Theorem restriction_enforcement (c : ContractDefinition) (s : IRGenerate) :
  restrictedContract c = true ->
  (contractRestriction c = None ->
   m_contracts s !! fullyQualifiedName c = None) ->
  exists msg s',
    firstRestriction c = Some msg /\
    visitContractDefinition c s = (Thrown (UnimplementedFeatureError msg), s') /\
    (is_Some (contractRestriction c) -> s' = s) /\
    (contractRestriction c = None ->
       registered s' (fullyQualifiedName c)
       = Some (assembly.mkBlock (location c)
                 (map (fun f => assembly.StmtFunctionDefinition (functionIR f))
                      (fst (committed (definedFunctions c)))))).
Proof.
  intros Hres Hfree.
  destruct (firstRestriction_restricted c Hres) as [msg Hmsg].
  exists msg. rewrite visitContractDefinition_spec.
  unfold contractRun. pose proof Hmsg as Hfirst. unfold firstRestriction in Hmsg.
  destruct (contractRestriction c) as [m|] eqn:Hc.
  - injection Hmsg as ->. exists s.
    split; [exact Hfirst|]. split; [reflexivity|]. split; [done|discriminate].
  - rewrite (Hfree eq_refl), Hmsg. eexists.
    split; [exact Hfirst|]. split; [reflexivity|]. split.
    + intros [? ?]; discriminate.
    + intros _. apply registered_new.
Qed.

(** C7: for every fully-qualified contract name a Block is registered at most
    once. On a generator that has visited any contracts since it was created,
    among which the qualified name of a contract names no other contract,
    visiting a contract whose name already has a registered Block fails with
    InternalCompilerError, not with UnimplementedFeatureError, and leaves the
    generator unchanged, so no statement is emitted. No visit, whatever its
    outcome, changes an entry of the registry. *)
Theorem duplicate_registration_rejected
    (cs : list ContractDefinition) (c : ContractDefinition) :
  (forall c', In c' cs -> fullyQualifiedName c' = fullyQualifiedName c -> c' = c) ->
  is_Some (m_contracts (visitContracts cs newIRGenerate) !! fullyQualifiedName c) ->
  visitContractDefinition c (visitContracts cs newIRGenerate)
  = (Thrown (InternalCompilerError ""), visitContracts cs newIRGenerate) /\
  (forall c0 s0 n l,
     m_contracts s0 !! n = Some l ->
     m_contracts (snd (visitContractDefinition c0 s0)) !! n = Some l).
Proof.
  intros Hid [l Hl]. split; [|intros c0 s0 n l0; apply visit_keeps_entry].
  destruct (visitContracts_registry_origin cs newIRGenerate _ l Hl)
    as [Hnew|(c' & Hin & Hn & Hc)].
  { simpl in Hnew. by rewrite lookup_empty in Hnew. }
  rewrite (Hid c' Hin Hn) in Hc.
  rewrite visitContractDefinition_spec. unfold contractRun.
  by rewrite Hc, Hl.
Qed.

(** C8, as the code has it: on entry of the visit of a supported function the
    current-function member is set to a fresh FunctionDefinition with the
    unique name and the source location of the function, and receives the
    statements emitted for the body of that function and no others; this does
    not depend on what the member held before and no check is made of it, so
    an entry that follows another entry without an exit in between succeeds
    and replaces the context. On exit a copy of the member is appended to the
    contract's Block. *)
Theorem current_function_context (f : FunctionDefinition) (s : IRGenerate) :
  functionRestriction f = None ->
  visitFunctionDefinition f s
  = (Returned false,
     mkIRGenerate (m_contracts s) (m_blocks s) (m_body s) (functionIR f)) /\
  (forall l b, m_body s = Some l -> m_blocks s !! l = Some b ->
     exists s',
       endVisitFunctionDefinition s = (Returned tt, s') /\
       m_contracts s' = m_contracts s /\
       m_body s' = m_body s /\
       m_blocks s'
       = <[l := appendStatements b
                  [assembly.StmtFunctionDefinition (m_currentFunction s)]]>
           (m_blocks s)).
Proof.
  intros Hf. destruct s as [cs bs bd cur]. simpl. split.
  - by rewrite visitFunctionDefinition_spec, Hf.
  - intros l b -> Hb. eexists. split.
    + unfold endVisitFunctionDefinition. simpl.
      by apply body_emplace_back_spec.
    + done.
Qed.

(** C9: generation is deterministic, and its output depends on the contract
    alone: two successful runs on the same contract, from whatever states of
    the generator, register the same Block for it, statement by statement. *)
Theorem generation_deterministic
    (c : ContractDefinition) (s1 s2 s1' s2' : IRGenerate) (r1 r2 : bool) :
  visitContractDefinition c s1 = (Returned r1, s1') ->
  visitContractDefinition c s2 = (Returned r2, s2') ->
  r1 = r2 /\
  is_Some (registered s1' (fullyQualifiedName c)) /\
  registered s1' (fullyQualifiedName c) = registered s2' (fullyQualifiedName c).
Proof.
  intros H1 H2.
  destruct (generation_success c s1 r1 s1' H1) as (p1 & Hp1 & _ & _ & -> & Hr1).
  destruct (generation_success c s2 r2 s2' H2) as (p2 & Hp2 & _ & _ & -> & Hr2).
  rewrite Hp1 in Hp2. injection Hp2 as <-.
  rewrite Hr1, Hr2. eauto.
Qed.

(** C10: the root Block of a contract that generates successfully holds the
    committed FunctionDefinitions in declaration order, then the statements
    parsed from the boilerplate in the order of the snippet, then the
    dispatch Switch as its last statement. *)
Theorem root_block_order
    (c : ContractDefinition) (s s' : IRGenerate) (r : bool) :
  visitContractDefinition c s = (Returned r, s') ->
  exists parsed blk,
    parse dispatcherBoilerplate = (Some parsed, []) /\
    registered s' (fullyQualifiedName c) = Some blk /\
    assembly.blk_location blk = location c /\
    assembly.statements blk
    = map (fun f => assembly.StmtFunctionDefinition (functionIR f))
          (definedFunctions c)
      ++ assembly.statements parsed
      ++ [assembly.StmtSwitch (dispatcherSwitch c)].
Proof.
  intros Hrun.
  destruct (generation_success c s r s' Hrun) as (parsed & Hp & _ & _ & _ & Hreg).
  exists parsed, (assembly.mkBlock (location c) (contractStatements c parsed)).
  by repeat split.
Qed.

(** ** Further properties of the generator *)

(** *** Statements of a function body *)

Lemma emitted_shape (st : Statement) : Forall revertOrPassthrough (emitted st).
Proof.
  induction st as [l ss IH|l|l ops|ch IH] using Statement_children_ind; simpl.
  - apply Forall_flat_map. by apply Forall_forall, Forall_forall.
  - constructor; [|constructor]. left. by exists l.
  - constructor; [|constructor]. right. by exists ops.
  - apply Forall_flat_map. by apply Forall_forall, Forall_forall.
Qed.

Lemma emitted_length (st : Statement) : length (emitted st) = emitters st.
Proof.
  induction st as [l ss IH|l|l ops|ch IH] using Statement_children_ind; simpl;
    try reflexivity.
  - rewrite length_flat_map. f_equal.
    induction IH as [|x r Hx _ IHr]; simpl; [reflexivity|]. by rewrite Hx, IHr.
  - rewrite length_flat_map. f_equal.
    induction IH as [|x r Hx _ IHr]; simpl; [reflexivity|]. by rewrite Hx, IHr.
Qed.

(** X1: visiting a statement of a function body never throws and touches
    nothing but the body of the current function: the registry, the blocks
    and [m_body] are as before, the current function keeps its name and
    location, and its body keeps the statements it had, followed by the new
    ones. There is one new statement for each [throw] and each inline
    assembly at or below the visited statement, and each is the revert call
    or a passed-through block. *)
Theorem statement_visit_effect (st : Statement) (s : IRGenerate) :
  exists s' new,
    accept st s = (Returned tt, s') /\
    m_contracts s' = m_contracts s /\
    m_blocks s' = m_blocks s /\
    m_body s' = m_body s /\
    assembly.fd_name (m_currentFunction s')
    = assembly.fd_name (m_currentFunction s) /\
    assembly.fd_location (m_currentFunction s')
    = assembly.fd_location (m_currentFunction s) /\
    assembly.statements (assembly.fd_body (m_currentFunction s'))
    = assembly.statements (assembly.fd_body (m_currentFunction s)) ++ new /\
    length new = emitters st /\
    Forall revertOrPassthrough new.
Proof.
  exists (appendToCurrent (emitted st) s), (emitted st).
  split; [apply accept_spec|].
  repeat split; try apply emitted_length; try apply emitted_shape.
Qed.

(** X2: a block nested in a block adds no scope: visiting a block gives the
    same result as visiting the block with the statements of the inner block
    in its place, whatever the locations of the two blocks. *)
Theorem nested_block_is_flattened
    (l l' l'' : SourceLocation) (before inner after : list Statement)
    (s : IRGenerate) :
  accept (StmtBlock (mkBlock l (before ++ [StmtBlock (mkBlock l' inner)] ++ after))) s
  = accept (StmtBlock (mkBlock l'' (before ++ inner ++ after))) s.
Proof.
  rewrite !accept_spec. simpl. rewrite !flat_map_app. reflexivity.
Qed.

(** X3: a function that violates a restriction is rejected before anything
    is changed: the visit throws UnimplementedFeatureError, [endVisit] is not
    reached, and the generator is as it was. The message is that of the
    first failing check in the order unimplemented, modifiers, parameters,
    return parameters. *)
Theorem rejected_function_changes_nothing
    (f : FunctionDefinition) (s : IRGenerate) :
  restrictedFunction f = true ->
  exists msg,
    acceptFunctionDefinition f s = (Thrown (UnimplementedFeatureError msg), s) /\
    msg = (if negb (isImplemented f)
           then "Unimplemented functions not supported yet."
           else if negb (empty (modifiers f)) then "Modifiers not supported yet."
           else if negb (empty (parameters f)) then "Parameters not supported yet."
           else "Return parameters not supported yet.").
Proof.
  intros Hr. destruct s as [cs bs bd cur].
  unfold acceptFunctionDefinition, bind. rewrite visitFunctionDefinition_spec.
  unfold restrictedFunction in Hr. unfold functionRestriction.
  destruct (isImplemented f), (empty (modifiers f)), (empty (parameters f)),
    (empty (returnParameters f)); simpl in *; try discriminate; eauto.
Qed.

(** *** The boilerplate *)

(** X4: [appendFunction] splices all or nothing. When the parser returns no
    block, or reports any error even though it returns a block, the call
    throws InternalCompilerError and the generator is as it was; when the
    parser returns a block and no error, the statements of the block are
    appended to the contract's Block in their order and nothing else
    changes. *)
Theorem appendFunction_all_or_nothing (text : string) (s : IRGenerate) :
  (fst (parse text) = None \/ snd (parse text) <> [] ->
   appendFunction text s = (Thrown (InternalCompilerError ""), s)) /\
  (forall blk l b,
     parse text = (Some blk, []) ->
     m_body s = Some l -> m_blocks s !! l = Some b ->
     exists s',
       appendFunction text s = (Returned tt, s') /\
       m_blocks s'
       = <[l := assembly.mkBlock (assembly.blk_location b)
                  (assembly.statements b ++ assembly.statements blk)]>
           (m_blocks s) /\
       m_contracts s' = m_contracts s /\
       m_body s' = m_body s /\
       m_currentFunction s' = m_currentFunction s).
Proof.
  split.
  - unfold appendFunction.
    destruct (parse text) as [[blk|] [|e errs]]; simpl;
      intros [H|H]; try discriminate; try done.
  - intros blk l b Hp Hl Hb. destruct s as [cs bs bd cur]. simpl in *. subst bd.
    rewrite (appendFunction_spec text cs bs l cur b Hb), Hp.
    eexists. split; [reflexivity|]. done.
Qed.

Lemma firstRestriction_None c :
  firstRestriction c = None ->
  contractRestriction c = None /\ snd (committed (definedFunctions c)) = None.
Proof.
  unfold firstRestriction. destruct (contractRestriction c); [discriminate|done].
Qed.

(** X5: when the contract and its functions pass every restriction check and
    the name is free, but the boilerplate does not parse cleanly, the visit
    throws InternalCompilerError after the functions were committed: the
    Block registered for the contract holds the FunctionDefinitions of all
    its functions and neither helper nor Switch. *)
Theorem boilerplate_failure_leaves_functions
    (c : ContractDefinition) (s : IRGenerate) :
  firstRestriction c = None ->
  m_contracts s !! fullyQualifiedName c = None ->
  fst (parse dispatcherBoilerplate) = None
  \/ snd (parse dispatcherBoilerplate) <> [] ->
  exists s',
    visitContractDefinition c s = (Thrown (InternalCompilerError ""), s') /\
    registered s' (fullyQualifiedName c)
    = Some (assembly.mkBlock (location c)
              (map (fun f => assembly.StmtFunctionDefinition (functionIR f))
                   (definedFunctions c))).
Proof.
  intros Hfirst Hfree Hparse.
  destruct (firstRestriction_None c Hfirst) as [Hc Hfs].
  rewrite visitContractDefinition_spec. unfold contractRun.
  rewrite Hc, Hfree, Hfs, (committed_all _ Hfs).
  destruct (parse dispatcherBoilerplate) as [[blk|] [|e errs]]; simpl in *;
    try (eexists; split; [reflexivity|apply registered_new]).
  destruct Hparse; done.
Qed.

(** *** The registry across visits *)

Lemma newIRGenerate_wellFormed : wellFormed newIRGenerate.
Proof.
  unfold wellFormed, newIRGenerate. simpl. repeat split; intros *.
  - by rewrite lookup_empty.
  - by rewrite lookup_empty.
  - discriminate.
Qed.

Lemma wellFormed_register cs bs bd cur fqn b cur' :
  wellFormed (mkIRGenerate cs bs bd cur) ->
  cs !! fqn = None ->
  wellFormed
    (mkIRGenerate (<[fqn := length bs]> cs) (bs ++ [b]) (Some (length bs)) cur').
Proof.
  intros (Hrange & Hinj & _) Hfree. unfold wellFormed. simpl in *.
  repeat split.
  - intros n l. rewrite length_app. simpl.
    destruct (decide (fqn = n)) as [->|Hne].
    + rewrite lookup_insert_eq. intros [= <-]. lia.
    + rewrite lookup_insert_ne by done. intros H. specialize (Hrange n l H). lia.
  - intros n1 n2 l.
    destruct (decide (fqn = n1)) as [<-|H1], (decide (fqn = n2)) as [<-|H2];
      rewrite ?lookup_insert_eq, ?lookup_insert_ne by done.
    + done.
    + intros [= <-] H. specialize (Hrange _ _ H). lia.
    + intros H [= <-]. specialize (Hrange _ _ H). lia.
    + apply Hinj.
  - intros l [= <-]. rewrite length_app. simpl. lia.
Qed.

(** X6: the generator keeps its state well formed through a contract visit,
    whatever the outcome: every entry of the registry and [m_body] point to
    an allocated block, and no two names share a block. A new generator is
    well formed. *)
Theorem visit_keeps_wellFormed (c : ContractDefinition) (s : IRGenerate) :
  wellFormed s ->
  wellFormed (snd (visitContractDefinition c s)).
Proof.
  intros Hwf. rewrite visitContractDefinition_spec. unfold contractRun.
  destruct (contractRestriction c); [exact Hwf|].
  destruct (m_contracts s !! fullyQualifiedName c) eqn:Hfree; [exact Hwf|].
  destruct s as [cs bs bd cur]. simpl in *.
  destruct (snd (committed (definedFunctions c))); simpl.
  { by apply (wellFormed_register cs bs bd cur). }
  destruct (parse dispatcherBoilerplate) as [[blk|] [|e errs]]; simpl;
    by apply (wellFormed_register cs bs bd cur).
Qed.

Lemma visit_keeps_registered c s n blk :
  registered s n = Some blk ->
  registered (snd (visitContractDefinition c s)) n = Some blk.
Proof.
  unfold registered. destruct (m_contracts s !! n) as [l|] eqn:Hn; [|discriminate].
  intros Hl. pose proof (lookup_lt_Some _ _ _ Hl) as Hlt.
  rewrite visitContractDefinition_spec. unfold contractRun.
  destruct (contractRestriction c); [by simpl; rewrite Hn|].
  destruct (m_contracts s !! fullyQualifiedName c) eqn:Hfree;
    [by simpl; rewrite Hn|].
  assert (Hne : fullyQualifiedName c <> n) by congruence.
  destruct (snd (committed (definedFunctions c))); simpl.
  { by rewrite lookup_insert_ne, Hn, lookup_app_l. }
  destruct (parse dispatcherBoilerplate) as [[b|] [|e errs]]; simpl;
    by rewrite lookup_insert_ne, Hn, lookup_app_l.
Qed.

Lemma visit_registers c s :
  contractRestriction c = None ->
  m_contracts s !! fullyQualifiedName c = None ->
  is_Some (registered (snd (visitContractDefinition c s)) (fullyQualifiedName c)).
Proof.
  intros Hc Hfree. rewrite visitContractDefinition_spec. unfold contractRun.
  rewrite Hc, Hfree. destruct s as [cs bs bd cur]. simpl.
  destruct (snd (committed (definedFunctions c))); simpl.
  { rewrite registered_new. eauto. }
  destruct (parse dispatcherBoilerplate) as [[b|] [|e errs]]; simpl;
    rewrite registered_new; eauto.
Qed.

Lemma registered_name_rejected c s :
  contractRestriction c = None ->
  is_Some (registered s (fullyQualifiedName c)) ->
  visitContractDefinition c s = (Thrown (InternalCompilerError ""), s).
Proof.
  intros Hc [blk Hreg]. rewrite visitContractDefinition_spec. unfold contractRun.
  rewrite Hc. unfold registered in Hreg.
  destruct (m_contracts s !! fullyQualifiedName c); [reflexivity|discriminate].
Qed.

(** X7: once a contract got past the contract-level checks on a free name,
    the name is taken, whether the visit then succeeded, hit a restricted
    function or failed on the boilerplate. The Block registered under the
    name is kept as it is by any later contract visit, and a later visit of
    a contract of that name that passes the contract-level checks throws
    InternalCompilerError and changes nothing. *)
Theorem name_stays_taken (c c2 : ContractDefinition) (s : IRGenerate) :
  contractRestriction c = None ->
  m_contracts s !! fullyQualifiedName c = None ->
  exists blk,
    registered (snd (visitContractDefinition c s)) (fullyQualifiedName c)
    = Some blk /\
    registered
      (snd (visitContractDefinition c2 (snd (visitContractDefinition c s))))
      (fullyQualifiedName c)
    = Some blk /\
    (contractRestriction c2 = None ->
     fullyQualifiedName c2 = fullyQualifiedName c ->
     visitContractDefinition c2 (snd (visitContractDefinition c s))
     = (Thrown (InternalCompilerError ""), snd (visitContractDefinition c s))).
Proof.
  intros Hc Hfree. destruct (visit_registers c s Hc Hfree) as [blk Hblk].
  exists blk. split; [exact Hblk|]. split.
  - by apply visit_keeps_registered.
  - intros Hc2 Hname. apply registered_name_rejected; [exact Hc2|].
    rewrite Hname. eauto.
Qed.

(** *** Internal names *)

Lemma string_app_nil_l (b : string) : "" +:+ b = b.
Proof. reflexivity. Qed.

Lemma string_app_cons (x : Ascii.ascii) (a b : string) :
  String.String x a +:+ b = String.String x (a +:+ b).
Proof. reflexivity. Qed.

Lemma string_length_app (a b : string) :
  String.length (a +:+ b) = String.length a + String.length b.
Proof.
  induction a as [|x a IH]; [reflexivity|].
  rewrite string_app_cons. simpl. by rewrite IH.
Qed.

Lemma string_app_inj_suffix (a c b d : string) :
  String.length b = String.length d ->
  a +:+ b = c +:+ d -> a = c /\ b = d.
Proof.
  revert c. induction a as [|x a IH]; intros [|y c] Hlen H;
    rewrite ?string_app_nil_l, ?string_app_cons in H.
  - done.
  - exfalso. rewrite H in Hlen. simpl in Hlen.
    rewrite string_length_app in Hlen. lia.
  - exfalso. rewrite <- H in Hlen. simpl in Hlen.
    rewrite string_length_app in Hlen. lia.
  - injection H as -> H. destruct (IH c Hlen H) as [-> ->]. done.
Qed.

Lemma hexDigit_inj n m :
  (n < 16)%N -> (m < 16)%N -> dev.hexDigit n = dev.hexDigit m -> n = m.
Proof.
  intros Hn Hm H.
  assert (En : exists i, i < 16 /\ n = N.of_nat i) by (exists (N.to_nat n); lia).
  assert (Em : exists j, j < 16 /\ m = N.of_nat j) by (exists (N.to_nat m); lia).
  destruct En as (i & Hi & ->), Em as (j & Hj & ->).
  do 16 (destruct i as [|i];
         [do 16 (destruct j as [|j];
                 [first [reflexivity | vm_compute in H; discriminate H]|]); lia|]).
  lia.
Qed.

Lemma to_N_inj b b' : Byte.to_N b = Byte.to_N b' -> b = b'.
Proof.
  intros H. pose proof (Byte.of_to_N b) as E. rewrite H, Byte.of_to_N in E.
  congruence.
Qed.

Lemma toHex_length bs : String.length (dev.toHex bs) = 2 * length bs.
Proof. induction bs as [|b r IH]; simpl; [reflexivity|]. rewrite IH. lia. Qed.

Lemma toHex_inj bs bs' : dev.toHex bs = dev.toHex bs' -> bs = bs'.
Proof.
  revert bs'. induction bs as [|b r IH]; intros [|b' r'] H; simpl in H;
    try discriminate; [reflexivity|].
  injection H as Hhi Hlo Hr.
  pose proof (to_N_lt_256 b) as Hb. pose proof (to_N_lt_256 b') as Hb'.
  apply hexDigit_inj in Hhi;
    [|apply N.Div0.div_lt_upper_bound; lia|apply N.Div0.div_lt_upper_bound; lia].
  apply hexDigit_inj in Hlo; [|apply N.mod_lt; lia|apply N.mod_lt; lia].
  f_equal; [|by apply IH].
  apply to_N_inj.
  pose proof (N.div_mod (Byte.to_N b) 16 ltac:(lia)) as E.
  pose proof (N.div_mod (Byte.to_N b') 16 ltac:(lia)) as E'.
  lia.
Qed.

(** X8: internal names do not collide. When the digests of two functions
    have the same length, equal internal names mean that both functions are
    unnamed or that they have the same source name and the same digest of
    their signatures: the fallback never shares its name with a named
    function, and two overloads of a name get different internal names as
    soon as the digests of their signatures differ. *)
Theorem internal_names_do_not_collide (f g : FunctionDefinition) :
  length (keccak256 (externalSignature f))
  = length (keccak256 (externalSignature g)) ->
  uniqueFunctionName f = uniqueFunctionName g ->
  (name f = "" /\ name g = "")
  \/ (name f <> "" /\ name f = name g /\
      keccak256 (externalSignature f) = keccak256 (externalSignature g)).
Proof.
  intros Hlen. unfold uniqueFunctionName.
  assert (Hu : forall r : string, "_" +:+ r = String.String "_"%char r)
    by reflexivity.
  destruct (name f) as [|x nf] eqn:Hf, (name g) as [|y ng] eqn:Hg; simpl;
    rewrite ?Hu.
  - by left.
  - discriminate.
  - discriminate.
  - intros [= Hx H]. right. split; [discriminate|].
    apply string_app_inj_suffix in H as [Hn Hh].
    + split; [by rewrite Hx, Hn|]. injection Hh as Hh. by apply toHex_inj.
    + simpl. by rewrite !toHex_length, Hlen.
Qed.

(** *** Functions outside the external interface *)

Lemma fold_dispatchStep_location fs sw :
  assembly.sw_location (fold_left dispatchStep fs sw) = assembly.sw_location sw.
Proof.
  revert sw. induction fs as [|f r IH]; intros sw; simpl; [reflexivity|].
  rewrite IH. unfold dispatchStep.
  destruct (isPartOfExternalInterface f); simpl; [|reflexivity].
  by destruct sw.
Qed.

Lemma dispatcherSwitch_closed c :
  dispatcherSwitch c
  = assembly.mkSwitch noLocation
      (Some (assembly.StmtFunctionCall (createFunctionCall "extractCallSignature")))
      (map dispatchCase (externalFunctions c) ++ [defaultCase c]).
Proof.
  pose proof (dispatcherSwitch_cases c) as Hc.
  pose proof (dispatcherSwitch_expression c) as He.
  assert (Hl : assembly.sw_location (dispatcherSwitch c) = noLocation).
  { unfold dispatcherSwitch, cases_emplace_back. simpl.
    by rewrite fold_dispatchStep_location. }
  destruct (dispatcherSwitch c) as [l e cs]. simpl in *. by subst.
Qed.

Lemma find_skip {A} (p : A -> bool) (l1 l2 : list A) (x : A) :
  p x = false -> List.find p (l1 ++ x :: l2) = List.find p (l1 ++ l2).
Proof.
  intros Hx. induction l1 as [|y l1 IH]; simpl.
  - by rewrite Hx.
  - by destruct (p y).
Qed.

(** X9: a named function that is not part of the external interface is never
    dispatched to: the Switch of a contract is the same with and without such
    a function among its functions. *)
Theorem internal_function_is_not_dispatched
    (c : ContractDefinition) (before after : list FunctionDefinition)
    (f : FunctionDefinition) :
  isPartOfExternalInterface f = false ->
  name f <> "" ->
  dispatcherSwitch (withFunctions c (before ++ f :: after))
  = dispatcherSwitch (withFunctions c (before ++ after)).
Proof.
  intros Hext Hname. rewrite !dispatcherSwitch_closed.
  unfold externalFunctions, defaultCase, fallbackFunction. simpl.
  rewrite !List.filter_app. simpl. rewrite Hext.
  rewrite find_skip; [reflexivity|].
  destruct (name f); [done|reflexivity].
Qed.

(** X10: a contract with no externally callable function and no unnamed
    function answers every call with a revert: its Switch is on the call
    extractCallSignature() and has the default case only, and the body of
    that case is the call revert(0, 0) with two Number literals of value 0
    and type u256. *)
Theorem dispatcher_without_functions (c : ContractDefinition) :
  externalFunctions c = [] ->
  fallbackFunction c = None ->
  let zero :=
    assembly.StmtLiteral
      (assembly.mkLiteral noLocation assembly.Number "0" "u256") in
  dispatcherSwitch c
  = assembly.mkSwitch noLocation
      (Some (assembly.StmtFunctionCall
               (assembly.mkFunctionCall noLocation
                  (assembly.mkIdentifier noLocation "extractCallSignature") [])))
      [assembly.mkCase noLocation None
         (assembly.mkBlock noLocation
            [assembly.StmtFunctionCall
               (assembly.mkFunctionCall noLocation
                  (assembly.mkIdentifier noLocation "revert") [zero; zero])])].
Proof.
  intros Hext Hfb zero. rewrite dispatcherSwitch_closed, Hext.
  unfold defaultCase. by rewrite Hfb.
Qed.

(** *** Where generation stops, and when it succeeds *)

Lemma committed_stops (before after : list FunctionDefinition)
    (f : FunctionDefinition) :
  restrictedFunction f = true ->
  committed (before ++ f :: after) = committed (before ++ [f]) /\
  is_Some (snd (committed (before ++ [f]))).
Proof.
  intros Hf. destruct (functionRestriction_restricted f Hf) as [msg Hmsg].
  induction before as [|g r [IH1 IH2]]; simpl.
  - rewrite Hmsg. eauto.
  - destruct (functionRestriction g); [eauto|].
    rewrite IH1. destruct (committed (r ++ [f])) as [pre e]. eauto.
Qed.

(** X11: generation stops at the first function that violates a
    restriction: the functions declared after it are not visited, and the
    outcome and the final state are the same as if they were not there. *)
Theorem functions_after_violation_are_ignored
    (c : ContractDefinition) (before after : list FunctionDefinition)
    (f : FunctionDefinition) (s : IRGenerate) :
  restrictedFunction f = true ->
  visitContractDefinition (withFunctions c (before ++ f :: after)) s
  = visitContractDefinition (withFunctions c (before ++ [f])) s.
Proof.
  intros Hf. destruct (committed_stops before after f Hf) as [Heq [msg Hmsg]].
  rewrite !visitContractDefinition_spec. unfold contractRun. simpl.
  change (contractRestriction (withFunctions c (before ++ f :: after)))
    with (contractRestriction c).
  change (contractRestriction (withFunctions c (before ++ [f])))
    with (contractRestriction c).
  rewrite Heq, Hmsg. reflexivity.
Qed.

Lemma functionRestriction_supported f :
  restrictedFunction f = false -> functionRestriction f = None.
Proof.
  unfold restrictedFunction, functionRestriction.
  destruct (isImplemented f), (empty (modifiers f)), (empty (parameters f)),
    (empty (returnParameters f)); simpl; done.
Qed.

Lemma committed_supported fs :
  existsb restrictedFunction fs = false -> snd (committed fs) = None.
Proof.
  induction fs as [|f r IH]; simpl; [reflexivity|].
  destruct (restrictedFunction f) eqn:Hf; simpl; [discriminate|].
  intros Hr. rewrite (functionRestriction_supported f Hf).
  destruct (committed r) as [pre e]. simpl in *. auto.
Qed.

Lemma firstRestriction_supported c :
  restrictedContract c = false -> firstRestriction c = None.
Proof.
  unfold restrictedContract, firstRestriction, contractRestriction.
  destruct (isContract (contractKind c)); simpl; [|discriminate].
  destruct (empty (baseContracts c)); simpl; [|discriminate].
  destruct (empty (definedStructs c)); simpl; [|discriminate].
  destruct (empty (definedEnums c)); simpl; [|discriminate].
  destruct (empty (events c)); simpl; [|discriminate].
  destruct (empty (functionModifiers c)); simpl; [|discriminate].
  apply committed_supported.
Qed.

(** X12: the visit of a contract returns exactly when the contract uses no
    unsupported feature, its name is not registered yet and the boilerplate
    parses without any error; the value it returns is [false], never
    [true]. *)
Theorem generation_succeeds_iff (c : ContractDefinition) (s : IRGenerate) :
  ((exists s', visitContractDefinition c s = (Returned false, s'))
   <-> restrictedContract c = false /\
       m_contracts s !! fullyQualifiedName c = None /\
       exists parsed, parse dispatcherBoilerplate = (Some parsed, [])) /\
  (forall s', visitContractDefinition c s <> (Returned true, s')).
Proof.
  split; [split|].
  - intros (s' & Hrun).
    destruct (generation_success c s false s' Hrun)
      as (parsed & Hp & Hfirst & Hfree & _).
    split; [|split; [exact Hfree|by exists parsed]].
    destruct (restrictedContract c) eqn:Hr; [|reflexivity].
    destruct (firstRestriction_restricted c Hr) as [msg Hmsg]. congruence.
  - intros (Hr & Hfree & parsed & Hp).
    destruct (firstRestriction_None c (firstRestriction_supported c Hr)) as [Hc Hfs].
    rewrite visitContractDefinition_spec. unfold contractRun.
    rewrite Hc, Hfree, Hfs, Hp. eauto.
  - intros s' Hrun.
    destruct (generation_success c s true s' Hrun) as (_ & _ & _ & _ & Hr & _).
    discriminate.
Qed.

End Generator.

(** ** The claims on sample inputs *)

(** The generator after the sample contract was visited. *)
Definition tokenGenerated : IRGenerate :=
  snd (visitContractDefinition sampleDigest sampleParse tokenContract newIRGenerate).

(** A generator holding the Block of another contract. *)
Definition otherGenerated : IRGenerate :=
  snd (visitContractDefinition sampleDigest sampleParse otherContract newIRGenerate).

(** A generator whose contract Block was just created. *)
Definition openedGenerator : IRGenerate :=
  snd (registerBody "token.sol:Token" (sampleLocation 0 160) newIRGenerate).

(** The example of the specification: a contract with only
    [function foo() external {}], not payable, and no fallback. *)
Example foo_only_contract :
  let foo :=
    solidity.mkFunctionDefinition (sampleLocation 20 50) "foo" true [] [] []
      false true (solidity.mkBlock (sampleLocation 48 50) []) in
  let c :=
    solidity.mkContractDefinition (sampleLocation 0 60) "foo.sol:Foo"
      solidity.Contract [] [] [] [] [] [foo] in
  let zero :=
    assembly.StmtLiteral (assembly.mkLiteral noLocation assembly.Number "0" "u256") in
  exists guard extractor,
    sampleParse dispatcherBoilerplate
    = (Some (assembly.mkBlock noLocation [guard; extractor]), []) /\
    registered
      (snd (visitContractDefinition sampleDigest sampleParse c newIRGenerate))
      "foo.sol:Foo"
    = Some
        (assembly.mkBlock (sampleLocation 0 60)
           [assembly.StmtFunctionDefinition
              (assembly.mkFunctionDefinition (sampleLocation 20 50)
                 "_foo_952a2a2a2a2a2a2a2a2a2a2a2a2a2a2a2a2a2a2a2a2a2a2a2a2a2a2a2a2a2a2a"
                 assembly.emptyBlock);
            guard; extractor;
            assembly.StmtSwitch
              (assembly.mkSwitch noLocation
                 (Some (assembly.StmtFunctionCall
                          (createFunctionCall "extractCallSignature")))
                 [assembly.mkCase noLocation
                    (Some (assembly.mkLiteral noLocation assembly.Number
                             "0x00000000000000000000000000000000000000000000000000000000952a2a2a"
                             "u256"))
                    (assembly.mkBlock noLocation
                       [assembly.StmtFunctionCall
                          (createFunctionCall "ensureNoValueTransfer");
                        assembly.StmtFunctionCall
                          (createFunctionCall
                             "_foo_952a2a2a2a2a2a2a2a2a2a2a2a2a2a2a2a2a2a2a2a2a2a2a2a2a2a2a2a2a2a2a")]);
                  assembly.mkCase noLocation None
                    (assembly.mkBlock noLocation
                       [assembly.StmtFunctionCall
                          (assembly.mkFunctionCall noLocation
                             (assembly.mkIdentifier noLocation "revert")
                             [zero; zero])])])]).
Proof.
  intros foo c zero. do 2 eexists. split; vm_compute; reflexivity.
Qed.

Example toHex_bytes : dev.toHex [x00; xab; x7f] = "00ab7f".
Proof. reflexivity. Qed.

Example toBigEndian_bytes : dev.toBigEndian 4 258 = [x00; x00; x01; x02].
Proof. reflexivity. Qed.

(** C1 on the sample contract. *)
Lemma dispatcher_case_per_external_function_witness :
  visitContractDefinition sampleDigest sampleParse tokenContract newIRGenerate
  = (Returned false, tokenGenerated) /\
  exists blk sw k0 k1 k2,
    registered tokenGenerated "token.sol:Token" = Some blk /\
    last (assembly.statements blk) = Some (assembly.StmtSwitch sw) /\
    assembly.cases sw = [k0; k1; k2] /\
    assembly.case_value k0
    = Some (assembly.mkLiteral noLocation assembly.Number
              "0x00000000000000000000000000000000000000000000000000000000952a2a2a"
              "u256") /\
    assembly.case_value k1
    = Some (assembly.mkLiteral noLocation assembly.Number
              "0x000000000000000000000000000000000000000000000000000000009b2a2a2a"
              "u256") /\
    assembly.case_value k2 = None.
Proof.
  split; [vm_compute; reflexivity|].
  destruct (dispatcher_case_per_external_function sampleDigest sampleParse
              tokenContract newIRGenerate tokenGenerated false)
    as (blk & sw & Hreg & Hlast & Hlen & Hsel & Hdef).
  - vm_compute. reflexivity.
  - destruct (Hsel 0 fooFunction eq_refl) as (k0 & Hk0 & Hv0).
    destruct (Hsel 1 payFunction eq_refl) as (k1 & Hk1 & Hv1).
    destruct (assembly.cases sw) as [|x0 [|x1 [|x2 [|x3 rest]]]] eqn:Hcases;
      try discriminate Hlen.
    injection Hk0 as ->. injection Hk1 as ->.
    exists blk, sw, k0, k1, x2.
    split; [exact Hreg|]. split; [exact Hlast|]. split; [exact Hcases|].
    split; [exact Hv0|]. split; [exact Hv1|].
    exact (proj2 (Hdef 2 x2 eq_refl) eq_refl).
Defined.

(** C2 on the sample contract. *)
Lemma selector_literal_of_case_witness :
  externalFunctions tokenContract !! 1 = Some payFunction /\
  exists k lit,
    assembly.cases (dispatcherSwitch sampleDigest tokenContract) !! 1 = Some k /\
    assembly.case_value k = Some lit /\
    assembly.value lit
    = "0x000000000000000000000000000000000000000000000000000000009b2a2a2a".
Proof.
  split; [reflexivity|].
  destruct (selector_literal_of_case sampleDigest tokenContract 1 payFunction
              eq_refl) as (k & lit & Hk & Hv & _ & _ & Hval).
  exists k, lit. split; [exact Hk|]. split; [exact Hv|].
  rewrite Hval. vm_compute. reflexivity.
Defined.

(** C3 on the sample contract. *)
Lemma case_body_guard_witness :
  externalFunctions tokenContract !! 0 = Some fooFunction /\
  exists k,
    assembly.cases (dispatcherSwitch sampleDigest tokenContract) !! 0 = Some k /\
    assembly.statements (assembly.case_body k)
    = [assembly.StmtFunctionCall (createFunctionCall "ensureNoValueTransfer");
       assembly.StmtFunctionCall
         (createFunctionCall (uniqueFunctionName sampleDigest fooFunction))].
Proof.
  split; [reflexivity|].
  destruct (case_body_guard sampleDigest tokenContract) as [Hcases _].
  destruct (Hcases 0 fooFunction eq_refl) as (k & Hk & Hbody & _).
  exists k. split; [exact Hk | exact Hbody].
Defined.

(** C4 on the sample contract. *)
Lemma default_case_body_witness :
  solidity.fallbackFunction tokenContract = Some unnamedFunction /\
  exists k,
    last (assembly.cases (dispatcherSwitch sampleDigest tokenContract)) = Some k /\
    assembly.statements (assembly.case_body k)
    = [assembly.StmtFunctionCall
         (assembly.mkFunctionCall noLocation
            (assembly.mkIdentifier noLocation "ensureNoValueTransfer") []);
       assembly.StmtFunctionCall
         (assembly.mkFunctionCall noLocation
            (assembly.mkIdentifier noLocation "fallback") [])].
Proof.
  split; [reflexivity|].
  destruct (default_case_body sampleDigest tokenContract)
    as (k & Hk & _ & Hfb & _).
  exists k. split; [exact Hk|]. exact (proj2 (Hfb unnamedFunction eq_refl)).
Defined.

(** C5 on the contract whose second function declares a parameter: the
    first function is committed under its internal name although generation
    fails; and on the dispatcher of the sample contract. *)
Lemma internal_function_names_witness :
  fst (visitContractDefinition sampleDigest sampleParse setterContract newIRGenerate)
  = Thrown (UnimplementedFeatureError "Parameters not supported yet.") /\
  (exists blk d,
     registered
       (snd (visitContractDefinition sampleDigest sampleParse setterContract
               newIRGenerate))
       "token.sol:Token"
     = Some blk /\
     assembly.statements blk !! 0 = Some (assembly.StmtFunctionDefinition d) /\
     assembly.fd_name d
     = "_foo_952a2a2a2a2a2a2a2a2a2a2a2a2a2a2a2a2a2a2a2a2a2a2a2a2a2a2a2a2a2a2a") /\
  (exists k,
     assembly.cases (dispatcherSwitch sampleDigest tokenContract) !! 0 = Some k /\
     last (assembly.statements (assembly.case_body k))
     = Some (assembly.StmtFunctionCall
               (assembly.mkFunctionCall noLocation
                  (assembly.mkIdentifier noLocation
                     "_foo_952a2a2a2a2a2a2a2a2a2a2a2a2a2a2a2a2a2a2a2a2a2a2a2a2a2a2a2a2a2a2a")
                  []))).
Proof.
  split; [vm_compute; reflexivity|].
  destruct (internal_function_names sampleDigest sampleParse setterContract
              newIRGenerate) as (_ & Hdefs & _).
  destruct (internal_function_names sampleDigest sampleParse tokenContract
              newIRGenerate) as (_ & _ & _ & Hcases & _).
  split.
  - destruct (Hdefs eq_refl eq_refl) as (blk & Hreg & Hcommitted).
    destruct (Hcommitted 0 fooFunction eq_refl) as (d & Hd & Hname).
    { intros [|j] g Hj Hg; [injection Hg as <-; reflexivity|lia]. }
    exists blk, d. split; [exact Hreg|]. split; [exact Hd|].
    rewrite Hname. vm_compute. reflexivity.
  - destruct (Hcases 0 fooFunction eq_refl) as (k & Hk & Hlast).
    exists k. split; [exact Hk|]. rewrite Hlast. vm_compute. reflexivity.
Defined.

(** C6, counterexample: the second function of the contract declares a
    parameter, generation fails with UnimplementedFeatureError, and the
    contract's Block is still registered, holding the FunctionDefinition of
    the first function. *)
Lemma restriction_failure_keeps_partial_block :
  restrictedContract setterContract = true /\
  fst (visitContractDefinition sampleDigest sampleParse setterContract newIRGenerate)
  = Thrown (UnimplementedFeatureError "Parameters not supported yet.") /\
  registered
    (snd (visitContractDefinition sampleDigest sampleParse setterContract
            newIRGenerate))
    "token.sol:Token"
  = Some (assembly.mkBlock (sampleLocation 0 160)
            [assembly.StmtFunctionDefinition (functionIR sampleDigest fooFunction)]) /\
  registered
    (snd (visitContractDefinition sampleDigest sampleParse setterContract
            newIRGenerate))
    "token.sol:Token"
  <> None.
Proof.
  split; [reflexivity|]. split; [vm_compute; reflexivity|].
  split; [vm_compute; reflexivity|]. vm_compute. discriminate.
Qed.

(** C6 on the sample contract. *)
Lemma restriction_enforcement_witness :
  restrictedContract setterContract = true /\
  m_contracts newIRGenerate !! "token.sol:Token" = None /\
  exists s',
    visitContractDefinition sampleDigest sampleParse setterContract newIRGenerate
    = (Thrown (UnimplementedFeatureError "Parameters not supported yet."), s') /\
    registered s' "token.sol:Token"
    = Some (assembly.mkBlock (sampleLocation 0 160)
              [assembly.StmtFunctionDefinition (functionIR sampleDigest fooFunction)]).
Proof.
  split; [reflexivity|]. split; [reflexivity|].
  destruct (restriction_enforcement sampleDigest sampleParse setterContract
              newIRGenerate eq_refl (fun _ => eq_refl))
    as (msg & s' & Hmsg & Hrun & _ & Hreg).
  exists s'. vm_compute in Hmsg. injection Hmsg as <-.
  split; [exact Hrun|]. exact (Hreg eq_refl).
Defined.

(** C7 on the sample contract, visited a second time by the generator that
    has visited another contract and then this one. *)
Lemma duplicate_registration_rejected_witness :
  is_Some
    (m_contracts (visitContracts sampleDigest sampleParse
                    [otherContract; tokenContract] newIRGenerate)
     !! "token.sol:Token") /\
  visitContractDefinition sampleDigest sampleParse tokenContract
    (visitContracts sampleDigest sampleParse [otherContract; tokenContract]
       newIRGenerate)
  = (Thrown (InternalCompilerError ""),
     visitContracts sampleDigest sampleParse [otherContract; tokenContract]
       newIRGenerate).
Proof.
  assert (Hreg : is_Some
            (m_contracts (visitContracts sampleDigest sampleParse
                            [otherContract; tokenContract] newIRGenerate)
             !! solidity.fullyQualifiedName tokenContract)).
  { vm_compute. eauto. }
  split; [exact Hreg|].
  refine (proj1 (duplicate_registration_rejected sampleDigest sampleParse
                   [otherContract; tokenContract] tokenContract _ Hreg)).
  intros c' [<-|[<-|[]]] Hname; [discriminate Hname|reflexivity].
Defined.

(** C8, counterexample: after the visit of a function is complete the
    current-function member still holds that function, and an entry that
    follows another entry without an exit in between returns normally. *)
Lemma context_neither_cleared_nor_guarded :
  (exists s1,
     acceptFunctionDefinition sampleDigest fooFunction openedGenerator
     = (Returned tt, s1) /\
     m_currentFunction s1 = functionIR sampleDigest fooFunction /\
     m_currentFunction s1 <> assembly.emptyFunctionDefinition) /\
  (exists s1 s2,
     visitFunctionDefinition sampleDigest fooFunction openedGenerator
     = (Returned false, s1) /\
     visitFunctionDefinition sampleDigest payFunction s1 = (Returned false, s2) /\
     m_currentFunction s2 = functionIR sampleDigest payFunction).
Proof.
  split.
  - eexists. split; [vm_compute; reflexivity|]. split; [reflexivity|].
    vm_compute. discriminate.
  - eexists. eexists. split; [vm_compute; reflexivity|].
    split; vm_compute; reflexivity.
Qed.

(** C8 on the sample contract. *)
Lemma current_function_context_witness :
  functionRestriction payFunction = None /\
  visitFunctionDefinition sampleDigest payFunction
    (snd (visitFunctionDefinition sampleDigest fooFunction openedGenerator))
  = (Returned false,
     mkIRGenerate (m_contracts openedGenerator) (m_blocks openedGenerator)
       (m_body openedGenerator) (functionIR sampleDigest payFunction)).
Proof.
  split; [reflexivity|].
  exact (proj1 (current_function_context sampleDigest payFunction
                  (snd (visitFunctionDefinition sampleDigest fooFunction
                          openedGenerator))
                  eq_refl)).
Defined.

(** C9 on the sample contract. *)
Lemma generation_deterministic_witness :
  visitContractDefinition sampleDigest sampleParse tokenContract newIRGenerate
  = (Returned false, tokenGenerated) /\
  otherGenerated <> newIRGenerate /\
  (exists s2',
     visitContractDefinition sampleDigest sampleParse tokenContract otherGenerated
     = (Returned false, s2') /\
     registered tokenGenerated "token.sol:Token"
     = registered s2' "token.sol:Token").
Proof.
  split; [vm_compute; reflexivity|].
  split; [vm_compute; discriminate|].
  exists (snd (visitContractDefinition sampleDigest sampleParse tokenContract
                 otherGenerated)).
  split; [vm_compute; reflexivity|].
  apply (generation_deterministic sampleDigest sampleParse tokenContract
           newIRGenerate otherGenerated tokenGenerated _ false false);
    vm_compute; reflexivity.
Defined.

(** C10 on the sample contract. *)
Lemma root_block_order_witness :
  visitContractDefinition sampleDigest sampleParse tokenContract newIRGenerate
  = (Returned false, tokenGenerated) /\
  exists blk d1 d2 d3 g e sw,
    registered tokenGenerated "token.sol:Token" = Some blk /\
    assembly.statements blk
    = [assembly.StmtFunctionDefinition d1; assembly.StmtFunctionDefinition d2;
       assembly.StmtFunctionDefinition d3; g; e; assembly.StmtSwitch sw] /\
    sampleParse dispatcherBoilerplate = (Some (assembly.mkBlock noLocation [g; e]), []).
Proof.
  split; [vm_compute; reflexivity|].
  destruct (root_block_order sampleDigest sampleParse tokenContract
              newIRGenerate tokenGenerated false)
    as (parsed & blk & Hp & Hreg & _ & Hsts).
  - vm_compute. reflexivity.
  - injection Hp as <-. exists blk. do 6 eexists.
    split; [exact Hreg|]. split; [exact Hsts|]. reflexivity.
Defined.

(** ** The further properties on sample inputs *)

(** X3 on a function that is unimplemented and has a modifier and a
    parameter. *)
Lemma rejected_function_changes_nothing_witness :
  restrictedFunction brokenFunction = true /\
  acceptFunctionDefinition sampleDigest brokenFunction openedGenerator
  = (Thrown (UnimplementedFeatureError "Unimplemented functions not supported yet."),
     openedGenerator).
Proof.
  split; [reflexivity|].
  destruct (rejected_function_changes_nothing sampleDigest brokenFunction
              openedGenerator eq_refl) as (msg & Hrun & ->).
  exact Hrun.
Defined.

(** X4 on a parser that returns a block together with a diagnostic. *)
Lemma appendFunction_all_or_nothing_witness :
  snd (warningParse dispatcherBoilerplate) <> [] /\
  is_Some (fst (warningParse dispatcherBoilerplate)) /\
  appendFunction warningParse dispatcherBoilerplate openedGenerator
  = (Thrown (InternalCompilerError ""), openedGenerator).
Proof.
  assert (H : snd (warningParse dispatcherBoilerplate) <> []) by discriminate.
  split; [exact H|]. split; [vm_compute; eauto|].
  exact (proj1 (appendFunction_all_or_nothing warningParse dispatcherBoilerplate
                  openedGenerator) (or_intror H)).
Defined.

(** X5 on the sample contract and a parser that rejects the boilerplate. *)
Lemma boilerplate_failure_leaves_functions_witness :
  firstRestriction tokenContract = None /\
  fst (failingParse dispatcherBoilerplate) = None /\
  exists s',
    visitContractDefinition sampleDigest failingParse tokenContract newIRGenerate
    = (Thrown (InternalCompilerError ""), s') /\
    option_map (fun b => length (assembly.statements b))
      (registered s' "token.sol:Token")
    = Some 3.
Proof.
  split; [reflexivity|]. split; [reflexivity|].
  destruct (boilerplate_failure_leaves_functions sampleDigest failingParse
              tokenContract newIRGenerate eq_refl eq_refl (or_introl eq_refl))
    as (s' & Hrun & Hreg).
  exists s'. split; [exact Hrun|]. simpl in Hreg. rewrite Hreg. reflexivity.
Defined.

(** X6 from a new generator. *)
Lemma visit_keeps_wellFormed_witness :
  wellFormed newIRGenerate /\ wellFormed tokenGenerated.
Proof.
  split; [exact newIRGenerate_wellFormed|].
  exact (visit_keeps_wellFormed sampleDigest sampleParse tokenContract
           newIRGenerate newIRGenerate_wellFormed).
Defined.

(** X7 after a visit that failed on a function with a parameter. *)
Lemma name_stays_taken_witness :
  fst (visitContractDefinition sampleDigest sampleParse setterContract newIRGenerate)
  = Thrown (UnimplementedFeatureError "Parameters not supported yet.") /\
  visitContractDefinition sampleDigest sampleParse tokenContract
    (snd (visitContractDefinition sampleDigest sampleParse setterContract
            newIRGenerate))
  = (Thrown (InternalCompilerError ""),
     snd (visitContractDefinition sampleDigest sampleParse setterContract
            newIRGenerate)).
Proof.
  split; [vm_compute; reflexivity|].
  destruct (name_stays_taken sampleDigest sampleParse setterContract tokenContract
              newIRGenerate eq_refl eq_refl) as (blk & _ & _ & Hretry).
  exact (Hretry eq_refl eq_refl).
Defined.

(** X8 on two declarations of [foo()] that differ in location and
    payability. *)
Lemma internal_names_do_not_collide_witness :
  uniqueFunctionName sampleDigest fooFunction
  = uniqueFunctionName sampleDigest
      (solidity.mkFunctionDefinition (sampleLocation 60 70) "foo" true [] [] []
         true true (solidity.mkBlock (sampleLocation 68 70) [])) /\
  sampleDigest (solidity.externalSignature fooFunction) = sampleDigest "foo()".
Proof.
  split; [reflexivity|].
  destruct (internal_names_do_not_collide sampleDigest fooFunction
              (solidity.mkFunctionDefinition (sampleLocation 60 70) "foo" true
                 [] [] [] true true (solidity.mkBlock (sampleLocation 68 70) []))
              eq_refl eq_refl) as [[H _]|(_ & _ & H)].
  - discriminate H.
  - exact H.
Defined.

(** X9 on the sample contract with an internal helper among its
    functions. *)
Lemma internal_function_is_not_dispatched_witness :
  solidity.isPartOfExternalInterface helperFunction = false /\
  dispatcherSwitch sampleDigest
    (withFunctions tokenContract
       ([fooFunction] ++ helperFunction :: [payFunction; unnamedFunction]))
  = dispatcherSwitch sampleDigest tokenContract.
Proof.
  split; [reflexivity|].
  exact (internal_function_is_not_dispatched sampleDigest tokenContract
           [fooFunction] [payFunction; unnamedFunction] helperFunction
           eq_refl ltac:(discriminate)).
Defined.

(** X10 on a contract with an internal helper only. *)
Lemma dispatcher_without_functions_witness :
  externalFunctions (withFunctions tokenContract [helperFunction]) = [] /\
  dispatcherSwitch sampleDigest (withFunctions tokenContract [helperFunction])
  = assembly.mkSwitch noLocation
      (Some (assembly.StmtFunctionCall
               (assembly.mkFunctionCall noLocation
                  (assembly.mkIdentifier noLocation "extractCallSignature") [])))
      [assembly.mkCase noLocation None
         (assembly.mkBlock noLocation
            [assembly.StmtFunctionCall
               (assembly.mkFunctionCall noLocation
                  (assembly.mkIdentifier noLocation "revert")
                  [assembly.StmtLiteral
                     (assembly.mkLiteral noLocation assembly.Number "0" "u256");
                   assembly.StmtLiteral
                     (assembly.mkLiteral noLocation assembly.Number "0" "u256")])])].
Proof.
  split; [reflexivity|].
  exact (dispatcher_without_functions sampleDigest
           (withFunctions tokenContract [helperFunction]) eq_refl eq_refl).
Defined.

(** X11 on the sample contract with a violating function before [pay]. *)
Lemma functions_after_violation_are_ignored_witness :
  restrictedFunction brokenFunction = true /\
  visitContractDefinition sampleDigest sampleParse
    (withFunctions tokenContract ([fooFunction] ++ brokenFunction :: [payFunction]))
    newIRGenerate
  = visitContractDefinition sampleDigest sampleParse
      (withFunctions tokenContract ([fooFunction] ++ [brokenFunction]))
      newIRGenerate.
Proof.
  split; [reflexivity|].
  exact (functions_after_violation_are_ignored sampleDigest sampleParse
           tokenContract [fooFunction] [payFunction] brokenFunction
           newIRGenerate eq_refl).
Defined.

(** Nested blocks on a sample body: two throws and one inline assembly give
    three statements, in source order. *)
Example nested_body_emitted :
  map (fun st =>
         match st with
         | assembly.StmtFunctionCall c => Some (assembly.call_location c)
         | _ => None
         end)
      (assembly.statements
         (assembly.fd_body
            (m_currentFunction (snd (accept nestedBody newIRGenerate)))))
  = [Some (sampleLocation 2 7); None; Some (sampleLocation 26 31)].
Proof. reflexivity. Qed.
